(** * Layer graphs of the StackGAN and Age-cGAN model scripts

    A shallow embedding of [stack_gan/model.py] and [face_app/model.py].
    Both scripts only declare network topologies through the Keras
    functional API, so the embedding has three levels:

    - [Keras]: the part of the framework the scripts call: shapes with an
      unknown batch dimension, layers with their hyper-parameters, symbolic
      tensors that remember the call that produced them, a builder monad
      (fresh layer ids, a trace of the calls made, shape errors raised at
      call time) and the real-valued meaning of every node;
    - [StackGAN] and [FaceApp]: the builder functions of the two scripts,
      statement by statement, with Python's rebinding of [x] written as
      shadowing;
    - the theorems.

    Reading conventions for the sources.  A name that has no literal
    reading is read as what it stands for:
    - misspelt framework identifiers ([LeakyRelu], [Relu], [lambda] for
      [Lambda], [Upsampling2D], [tf.keras.math.exp]) are the Keras names;
    - framework names used without an import ([add], [concatenate] and
      [ZeroPadding2D] in [stack_gan/model.py], [os] in [face_app/model.py])
      are the Keras and Python objects of that name;
    - three names bound nowhere are the names bound next to them: [conact]
      (line 93 of [stack_gan/model.py]) is [concat], [meta] (line 63 of
      [face_app/model.py]) is [metadata], [images] (line 187) is [image].
    Everything else (which bound name a call receives, layer kinds,
    hyper-parameters, backend calls and their arguments) is taken
    literally.  The framework is [tensorflow.keras] of TensorFlow 2, which
    both scripts assert. *)

From Stdlib Require Import String List ZArith Bool Lia QArith Reals Lra Qreals.
Import ListNotations.

Set Implicit Arguments.
Set Warnings "-register-all".

(* ================================================================== *)
(** * The framework *)
(* ================================================================== *)

Module Keras.

Local Open Scope Z_scope.

(** ** Shapes *)

(** A dimension is a known size or [None] (the batch axis of [Input]). *)
Definition dim := option Z.
Definition shape := list dim.

Definition dim_eqb (a b : dim) : bool :=
  match a, b with
  | Some x, Some y => x =? y
  | None, None => true
  | _, _ => false
  end.

Fixpoint shape_eqb (s t : shape) : bool :=
  match s, t with
  | [], [] => true
  | a :: s', b :: t' => dim_eqb a b && shape_eqb s' t'
  | _, _ => false
  end.

Definition rank (s : shape) : Z := Z.of_nat (length s).

(** Exceptions raised while a graph is built. *)
Inductive exn :=
| RankError        (* an operand has the wrong number of axes *)
| DimMismatch      (* operand sizes disagree on some axis *)
| UndefinedDim     (* a size that must be known is [None] *)
| NegativeDim      (* a convolution window larger than its input *)
| SizeMismatch     (* Reshape to a different number of elements *)
| AxisError        (* axis out of range *)
| InvalidValue.    (* a layer size that must be positive is not *)

Definition result (A : Type) := sum exn A.

Definition dim_mul (d : dim) (k : Z) : dim := option_map (fun n => n * k) d.
Definition dim_add (d : dim) (k : Z) : dim := option_map (fun n => n + k) d.

(** Product of the sizes of a fully known shape. *)
Fixpoint numel (s : shape) : option Z :=
  match s with
  | [] => Some 1
  | Some n :: s' => option_map (Z.mul n) (numel s')
  | None :: _ => None
  end.

(** Python's axis normalisation: negative axes count from the end. *)
Definition norm_axis (r a : Z) : option nat :=
  let a' := if a <? 0 then a + r else a in
  if (0 <=? a') && (a' <? r) then Some (Z.to_nat a') else None.

(** ** Layers *)

Inductive padding := Same | Valid.
Inductive act_fn := Tanh | Sigmoid.

Inductive layer :=
| Dense (units : Z) (use_bias : bool)
| Conv2D (filters : Z) (kh kw : Z) (strides : Z) (pad : padding)
         (use_bias : bool)
| BatchNormalization
| LeakyReLU (alpha : Q)
| ReLU
| Activation (f : act_fn)
| UpSampling2D (sh sw : Z)
| ZeroPadding2D (ph pw : Z)
| Flatten
| Reshape (target : list Z)
| Concatenate (axis : Z)
| Add
| Lambda (fn : string).

(** Operations of [keras.backend] and of tensor arithmetic, as the bodies
    of the [Lambda] functions use them. *)
Inductive bop :=
| SliceTo (stop : Z)        (* x[:, :stop]   *)
| SliceFrom (start : Z)     (* x[:, start:]  *)
| Exp                       (* exp           *)
| RandomNormal (n : Z)      (* K.random_normal(shape=(n,)) *)
| Plus                      (* a + b, broadcasting *)
| Times                     (* a * b, broadcasting *)
| ExpandDims (axis : Z)     (* K.expand_dims *)
| Tile (multiples : list Z) (* K.tile        *)
| KConcatenate (axis : Z).  (* K.concatenate *)

(** ** Symbolic tensors

    A Keras tensor knows its static shape and the call that produced it.
    [uid] is the identity of the layer object created by the call: two
    layers with equal hyper-parameters still own different weights. *)
Inductive ktensor :=
| KInput (name : string) (sh : shape)
| KLayer (uid : nat) (l : layer) (sh : shape) (args : list ktensor)
| KOp (o : bop) (sh : shape) (args : list ktensor).

Definition shape_of (t : ktensor) : shape :=
  match t with
  | KInput _ sh => sh
  | KLayer _ _ sh _ => sh
  | KOp _ sh _ => sh
  end.

(** Induction over symbolic tensors, with the hypothesis on every
    argument of a call. *)
Section Induction.

Variable P : ktensor -> Prop.
Hypothesis P_input : forall name sh, P (KInput name sh).
Hypothesis P_layer : forall uid l sh args,
    Forall P args -> P (KLayer uid l sh args).
Hypothesis P_op : forall o sh args, Forall P args -> P (KOp o sh args).

Fixpoint ktensor_induction (t : ktensor) : P t :=
  let fix all (ts : list ktensor) : Forall P ts :=
    match ts with
    | [] => Forall_nil P
    | a :: ts' => Forall_cons a (ktensor_induction a) (all ts')
    end in
  match t with
  | KInput name sh => P_input name sh
  | KLayer uid l sh args => P_layer uid l sh (all args)
  | KOp o sh args => P_op o sh (all args)
  end.

End Induction.

(** ** Shape inference of the layers *)

(** Output length of a convolution along one axis
    ([conv_utils.conv_output_length]). *)
Definition conv_output_length (n k s : Z) (p : padding) : result Z :=
  match p with
  | Same => inr ((n + s - 1) / s)
  | Valid => if n - k + 1 <=? 0 then inl NegativeDim
             else inr ((n - k + 1 + s - 1) / s)
  end.

Definition conv_dim (d : dim) (k s : Z) (p : padding) : result dim :=
  match d with
  | None => inr None
  | Some n => match conv_output_length n k s p with
              | inl e => inl e
              | inr m => inr (Some m)
              end
  end.

Fixpoint replace_last (s : shape) (d : dim) : result shape :=
  match s with
  | [] => inl RankError
  | [Some _] => inr [d]
  | [None] => inl UndefinedDim
  | a :: s' => match replace_last s' d with
               | inl e => inl e
               | inr r => inr (a :: r)
               end
  end.

(** Merge rule of [Concatenate]: equal ranks, equal sizes off the axis,
    sizes added on the axis. *)
Fixpoint concat_shapes (ax : nat) (s t : shape) : result shape :=
  match s, t with
  | a :: s', b :: t' =>
      match ax with
      | O => if shape_eqb s' t'
             then inr (match a, b with
                       | Some x, Some y => Some (x + y)
                       | _, _ => None
                       end :: s')
             else inl DimMismatch
      | S ax' => if dim_eqb a b
                 then match concat_shapes ax' s' t' with
                      | inl e => inl e
                      | inr r => inr (a :: r)
                      end
                 else inl DimMismatch
      end
  | [], [] => inl AxisError
  | _, _ => inl RankError
  end.

Definition concat_infer (axis : Z) (s t : shape) : result shape :=
  if negb (length s =? length t)%nat then inl RankError
  else match norm_axis (rank s) axis with
       | None => inl AxisError
       | Some ax => concat_shapes ax s t
       end.

(** Element-wise merge of two sizes (used by [Add] and by broadcasting
    arithmetic): equal, or one of them 1, or unknown. *)
Definition merge_dim (a b : dim) : result dim :=
  match a, b with
  | None, _ | _, None => inr None
  | Some x, Some y =>
      if x =? y then inr (Some x)
      else if x =? 1 then inr (Some y)
      else if y =? 1 then inr (Some x)
      else inl DimMismatch
  end.

Fixpoint merge_shapes (s t : shape) : result shape :=
  match s, t with
  | [], [] => inr []
  | a :: s', b :: t' =>
      match merge_dim a b, merge_shapes s' t' with
      | inr d, inr r => inr (d :: r)
      | inl e, _ => inl e
      | _, inl e => inl e
      end
  | _, _ => inl RankError
  end.

(** A layer is built on its first call.  [Dense], [Conv2D] and
    [BatchNormalization] size their weights by the last axis of the
    input, which must be known; [Dense] and [Conv2D] refuse a number of
    units or filters that is not positive. *)
Definition layer_infer (l : layer) (ins : list shape) : result shape :=
  match l, ins with
  | Dense units _, [s] =>
      if units <=? 0 then inl InvalidValue
      else if (length s <? 2)%nat then inl RankError
      else replace_last s (Some units)
  | Conv2D filters kh kw st p _, [[b; h; w; c]] =>
      if filters <=? 0 then inl InvalidValue
      else match c with
           | None => inl UndefinedDim
           | Some _ =>
               match conv_dim h kh st p, conv_dim w kw st p with
               | inr h', inr w' => inr [b; h'; w'; Some filters]
               | inl e, _ => inl e
               | _, inl e => inl e
               end
           end
  | Conv2D _ _ _ _ _ _, [_] => inl RankError
  | BatchNormalization, [s] =>
      match last s None with
      | Some _ => inr s
      | None => inl UndefinedDim
      end
  | LeakyReLU _, [s] => inr s
  | ReLU, [s] => inr s
  | Activation _, [s] => inr s
  | UpSampling2D sh sw, [[b; h; w; c]] =>
      inr [b; dim_mul h sh; dim_mul w sw; c]
  | UpSampling2D _ _, [_] => inl RankError
  | ZeroPadding2D ph pw, [[b; h; w; c]] =>
      inr [b; dim_add h (2 * ph); dim_add w (2 * pw); c]
  | ZeroPadding2D _ _, [_] => inl RankError
  | Flatten, [b :: s] =>
      match numel s with
      | Some n => inr [b; Some n]
      | None => inl UndefinedDim
      end
  | Reshape target, [b :: s] =>
      match numel s with
      | Some n => if n =? fold_right Z.mul 1 target
                  then inr (b :: map Some target)
                  else inl SizeMismatch
      | None => inl UndefinedDim
      end
  | Concatenate axis, [s; t] => concat_infer axis s t
  | Add, [s; t] => merge_shapes s t
  | Lambda _, [s] => inr s
  | _, _ => inl RankError
  end.

(** ** Shape inference of the backend operations *)

Definition slice_axis1 (f : Z -> Z) (s : shape) : result shape :=
  match s with
  | b :: d :: s' => inr (b :: option_map f d :: s')
  | _ => inl RankError
  end.

Fixpoint insert_at (n : nat) (d : dim) (s : shape) : shape :=
  match n, s with
  | O, _ => d :: s
  | S n', a :: s' => a :: insert_at n' d s'
  | S _, [] => [d]
  end.

Fixpoint tile_shape (s : shape) (ms : list Z) : result shape :=
  match s, ms with
  | [], [] => inr []
  | a :: s', m :: ms' =>
      match tile_shape s' ms' with
      | inl e => inl e
      | inr r => inr (dim_mul a m :: r)
      end
  | _, _ => inl RankError
  end.

(** NumPy broadcasting: shapes are aligned on their last axis. *)
Definition broadcast_shapes (s t : shape) : result shape :=
  let n := Nat.max (length s) (length t) in
  let padl (u : shape) := repeat (Some 1) (n - length u) ++ u in
  merge_shapes (padl s) (padl t).

Definition bop_infer (o : bop) (ins : list shape) : result shape :=
  match o, ins with
  | SliceTo stop, [s] => slice_axis1 (fun d => Z.min stop d) s
  | SliceFrom start, [s] => slice_axis1 (fun d => Z.max (d - start) 0) s
  | Exp, [s] => inr s
  | RandomNormal n, [] => inr [Some n]
  | Plus, [s; t] => broadcast_shapes s t
  | Times, [s; t] => broadcast_shapes s t
  | ExpandDims axis, [s] =>
      match norm_axis (rank s + 1) axis with
      | Some ax => inr (insert_at ax (Some 1) s)
      | None => inl AxisError
      end
  | Tile ms, [s] => tile_shape s ms
  | KConcatenate axis, [s; t] => concat_infer axis s t
  | _, _ => inl RankError
  end.

(** ** The builder monad

    Building a graph allocates objects (layers, models), may flip their
    [trainable] attribute and may raise.  The state holds the next free
    object id, the trace of the layer calls made so far (oldest first) and
    the ids of the objects whose [trainable] attribute is [False]; the
    attribute is [True] on a new object. *)
Record kstate := {
  next_uid : nat;
  trace : list ktensor;
  frozen : list nat
}.

Definition init_state : kstate :=
  {| next_uid := 0; trace := []; frozen := [] |}.

Definition M (A : Type) := kstate -> result (A * kstate).

Definition ret {A} (a : A) : M A := fun s => inr (a, s).

Definition bind {A B} (c : M A) (k : A -> M B) : M B :=
  fun s => match c s with
           | inl e => inl e
           | inr (a, s') => k a s'
           end.

Definition raise {A} (e : exn) : M A := fun _ => inl e.

Declare Scope keras_scope.
Delimit Scope keras_scope with keras.
Notation "x <- c ;; k" := (bind c (fun x => k))
  (at level 61, c at next level, right associativity) : keras_scope.
Notation "c ;;; k" := (bind c (fun _ => k))
  (at level 61, right associativity) : keras_scope.
Local Open Scope keras_scope.

(** [Input(shape=...)]: the batch axis is prepended. *)
Definition Input (name : string) (sh : list Z) : M ktensor :=
  ret (KInput name (None :: map Some sh)).

Definition record (t : ktensor) (s : kstate) : kstate :=
  {| next_uid := S (next_uid s);
     trace := trace s ++ [t];
     frozen := frozen s |}.

(** [L(...)(args)]: create the layer object, infer the output shape. *)
Definition call (l : layer) (args : list ktensor) : M ktensor :=
  fun s => match layer_infer l (map shape_of args) with
           | inl e => inl e
           | inr sh => let t := KLayer (next_uid s) l sh args in
                       inr (t, record t s)
           end.

(** A backend operation: no layer object, no weights. *)
Definition backend (o : bop) (args : list ktensor) : M ktensor :=
  fun s => match bop_infer o (map shape_of args) with
           | inl e => inl e
           | inr sh => inr (KOp o sh args, s)
           end.

(** [Lambda(f)(x)]: the layer wraps the tensor the function returns. *)
Definition call_lambda (fn : string) (f : ktensor -> M ktensor)
    (x : ktensor) : M ktensor :=
  body <- f x ;;
  fun s => let t := KLayer (next_uid s) (Lambda fn) (shape_of body) [body] in
           inr (t, record t s).

(** ** Models *)

(** [Model(inputs=..., outputs=...)] is an object of its own; the
    constructor records the two lists it is given.  Keras also checks
    that the outputs can be computed from the listed inputs, and when a
    listed input is not a placeholder the outcome depends on the version
    of the framework (an error, or a model cut at that tensor).  That
    check is left out.  Of the builders below only [discriminator()] of
    [face_app/model.py] lists such an input; the model it returns here is
    used only to show that composing it with the generator raises. *)
Record Model := {
  mid : nat;
  inputs : list ktensor;
  outputs : list ktensor
}.

Definition new_model (ins outs : list ktensor) : M Model :=
  fun s => inr ({| mid := next_uid s; inputs := ins; outputs := outs |},
                {| next_uid := S (next_uid s);
                   trace := trace s;
                   frozen := frozen s |}).

(** The layer objects a tensor was computed with, and those among them
    that own weights. *)
Fixpoint layers_of (t : ktensor) : list nat :=
  match t with
  | KInput _ _ => []
  | KLayer uid _ _ args => uid :: flat_map layers_of args
  | KOp _ _ args => flat_map layers_of args
  end.

(** The chain of layer calls from a tensor back through the first
    argument of each call, with the shape each call produced. *)
Fixpoint spine (t : ktensor) : list (layer * shape) :=
  match t with
  | KLayer _ l sh args =>
      (l, sh) :: match args with
                 | a :: _ => spine a
                 | [] => []
                 end
  | _ => []
  end.

(** The layer calls of a build, oldest first, each with the shape it
    produced. *)
Definition calls_of (s : kstate) : list (layer * shape) :=
  flat_map (fun t => match t with
                     | KLayer _ l sh _ => [(l, sh)]
                     | _ => []
                     end) (trace s).

(** The same calls with the tensors they were applied to. *)
Definition calls_with_args (s : kstate) : list (layer * list ktensor) :=
  flat_map (fun t => match t with
                     | KLayer _ l _ args => [(l, args)]
                     | _ => []
                     end) (trace s).

Definition is_conv2d (l : layer) : bool :=
  match l with
  | Conv2D _ _ _ _ _ _ => true
  | _ => false
  end.

(** Shapes of a batch of vectors and of a batch of feature maps. *)
Definition vec (n : Z) : shape := [None; Some n].
Definition nhwc (h w c : Z) : shape := [None; Some h; Some w; Some c].

Definition has_weights (l : layer) : bool :=
  match l with
  | Dense _ _ | Conv2D _ _ _ _ _ _ | BatchNormalization => true
  | _ => false
  end.

Fixpoint weighted_layers_of (t : ktensor) : list nat :=
  match t with
  | KInput _ _ => []
  | KLayer uid l _ args =>
      (if has_weights l then [uid] else [])
      ++ flat_map weighted_layers_of args
  | KOp _ _ args => flat_map weighted_layers_of args
  end.

Definition model_layers (m : Model) : list nat :=
  flat_map layers_of (outputs m).

Definition model_weights (m : Model) : list nat :=
  flat_map weighted_layers_of (outputs m).

(** The placeholders a tensor is computed from. *)
Fixpoint inputs_of (t : ktensor) : list string :=
  match t with
  | KInput name _ => [name]
  | KLayer _ _ _ args => flat_map inputs_of args
  | KOp _ _ args => flat_map inputs_of args
  end.

Definition input_name (t : ktensor) : string :=
  match t with
  | KInput name _ => name
  | _ => EmptyString
  end.

Fixpoint assoc (name : string) (b : list (string * ktensor))
    : option ktensor :=
  match b with
  | [] => None
  | (n, t) :: b' => if String.eqb n name then Some t else assoc name b'
  end.

(** Replace the placeholders of a graph by other tensors; the layer
    objects, hence the weights, stay the same. *)
Fixpoint subst (b : list (string * ktensor)) (t : ktensor) : ktensor :=
  match t with
  | KInput name sh => match assoc name b with
                      | Some u => u
                      | None => t
                      end
  | KLayer uid l sh args => KLayer uid l sh (map (subst b) args)
  | KOp o sh args => KOp o sh (map (subst b) args)
  end.

Fixpoint shapes_agree (ins args : list ktensor) : bool :=
  match ins, args with
  | [], [] => true
  | i :: ins', a :: args' =>
      shape_eqb (shape_of i) (shape_of a) && shapes_agree ins' args'
  | _, _ => false
  end.

(** [model([a1, ..., an])]: the model applied to new tensors.  There must
    be one argument per input.  The scripts pass arguments whose static
    shape either is the declared one or clashes with it, and these are the
    two cases told apart here: an argument of the declared shape is
    accepted, any other is refused.  (Keras also accepts a shape that only
    leaves a declared size unknown; no call of the scripts does that, and
    the properties below do not rely on such a call being refused.) *)
Definition call_model (m : Model) (args : list ktensor)
    : M (list ktensor) :=
  if shapes_agree (inputs m) args
  then ret (map (subst (combine (map input_name (inputs m)) args))
                (outputs m))
  else raise DimMismatch.

(** ** The [trainable] attribute

    The setter of a model stores the value on the model and on each of
    its layers; [trainable_weights] of a model is empty when the model is
    not trainable and otherwise gathers the weights of its trainable
    layers. *)
Definition remove_all (xs ys : list nat) : list nat :=
  filter (fun y => negb (existsb (Nat.eqb y) xs)) ys.

Definition set_trainable (m : Model) (value : bool) : M unit :=
  fun s =>
    let objs := mid m :: model_layers m in
    inr (tt, {| next_uid := next_uid s;
                trace := trace s;
                frozen := if value then remove_all objs (frozen s)
                          else objs ++ frozen s |}).

Definition is_trainable (s : kstate) (obj : nat) : bool :=
  negb (existsb (Nat.eqb obj) (frozen s)).

Definition trainable_weights (s : kstate) (m : Model) : list nat :=
  if is_trainable s (mid m)
  then filter (is_trainable s) (nodup Nat.eq_dec (model_weights m))
  else [].

(** [compile] fixes the set of weights the optimizer will update; a
    training step then applies the optimizer's update to those weights and
    to no other.  [W] is whatever a layer's weights are, [update] what the
    optimizer does to the weights of one layer on the current batch. *)
Definition compile (m : Model) : M (list nat) :=
  fun s => inr (trainable_weights s m, s).

Definition train_step {W : Type} (collected : list nat)
    (update : nat -> W -> W) (theta : nat -> W) : nat -> W :=
  fun uid => if existsb (Nat.eqb uid) collected
             then update uid (theta uid)
             else theta uid.

Definition run {A} (c : M A) : result (A * kstate) := c init_state.

(** ** What a node computes

    Tensors are read through their index function; the first index is the
    position in the batch.  The learned parameters of the layer with
    identity [uid], the values fed to the [Input] placeholders, the batch
    size, the training/inference switch of [BatchNormalization] and the
    draw returned by [K.random_normal] make up the [world] a graph is
    evaluated in.  (Every graph below contains at most one
    [K.random_normal] node.) *)

Definition tensor := list Z -> R.

Record world := {
  kernel : nat -> tensor;        (* kernel of the layer [uid] *)
  bias : nat -> tensor;
  gamma : nat -> tensor;         (* BatchNormalization scale and offset *)
  beta : nat -> tensor;
  moving_mean : nat -> tensor;
  moving_var : nat -> tensor;
  feed : string -> tensor;       (* values of the [Input] placeholders *)
  batch : Z;                     (* number of samples in the batch *)
  training : bool;
  noise : tensor                 (* the draw of [K.random_normal] *)
}.

(** The same world with another noise draw. *)
Definition with_noise (ctx : world) (n : tensor) : world :=
  {| kernel := kernel ctx; bias := bias ctx; gamma := gamma ctx;
     beta := beta ctx; moving_mean := moving_mean ctx;
     moving_var := moving_var ctx; feed := feed ctx; batch := batch ctx;
     training := training ctx; noise := n |}.

(** The same world with other values on the placeholders. *)
Definition with_feed (ctx : world) (f : string -> tensor) : world :=
  {| kernel := kernel ctx; bias := bias ctx; gamma := gamma ctx;
     beta := beta ctx; moving_mean := moving_mean ctx;
     moving_var := moving_var ctx; feed := f; batch := batch ctx;
     training := training ctx; noise := noise ctx |}.

(** The world in which the layer [uid] owns the weights that the layer
    [uid + k] owns in [ctx]. *)
Definition shift_layers (k : nat) (ctx : world) : world :=
  {| kernel := fun uid => kernel ctx (uid + k)%nat;
     bias := fun uid => bias ctx (uid + k)%nat;
     gamma := fun uid => gamma ctx (uid + k)%nat;
     beta := fun uid => beta ctx (uid + k)%nat;
     moving_mean := fun uid => moving_mean ctx (uid + k)%nat;
     moving_var := fun uid => moving_var ctx (uid + k)%nat;
     feed := feed ctx; batch := batch ctx;
     training := training ctx; noise := noise ctx |}.

(** The inverse renaming: the layer [uid] owns what [uid - k] owns in
    [ctx]. *)
Definition unshift_layers (k : nat) (ctx : world) : world :=
  {| kernel := fun uid => kernel ctx (uid - k)%nat;
     bias := fun uid => bias ctx (uid - k)%nat;
     gamma := fun uid => gamma ctx (uid - k)%nat;
     beta := fun uid => beta ctx (uid - k)%nat;
     moving_mean := fun uid => moving_mean ctx (uid - k)%nat;
     moving_var := fun uid => moving_var ctx (uid - k)%nat;
     feed := feed ctx; batch := batch ctx;
     training := training ctx; noise := noise ctx |}.

(** All weights and inputs zero, one sample, inference mode. *)
Definition zero_world : world :=
  let z : tensor := fun _ => 0%R in
  {| kernel := fun _ => z; bias := fun _ => z; gamma := fun _ => z;
     beta := fun _ => z; moving_mean := fun _ => z;
     moving_var := fun _ => z; feed := fun _ => z; batch := 1;
     training := false; noise := z |}.

Section Semantics.

Local Open Scope R_scope.

Variable ctx : world.

Fixpoint sum_upto (n : nat) (f : Z -> R) : R :=
  match n with
  | O => 0
  | S m => sum_upto m f + f (Z.of_nat m)
  end.

(** [Zsum n f] is f 0 + ... + f (n-1). *)
Definition Zsum (n : Z) (f : Z -> R) : R := sum_upto (Z.to_nat n) f.

(** Sum of [f] over every index list below [dims]. *)
Fixpoint sum_over (dims : list Z) (f : list Z -> R) : R :=
  match dims with
  | [] => f []
  | d :: ds => Zsum d (fun i => sum_over ds (fun idx => f (i :: idx)))
  end.

Definition size (d : dim) : Z :=
  match d with Some n => n | None => batch ctx end.

Definition last_index (idx : list Z) : Z := last idx 0%Z.

(** Row-major position of an index list, and back. *)
Fixpoint ravel (dims idx : list Z) : Z :=
  match dims, idx with
  | _ :: ds, i :: idx' => (i * fold_right Z.mul 1 ds + ravel ds idx')%Z
  | _, _ => 0%Z
  end.

Fixpoint unravel (dims : list Z) (k : Z) : list Z :=
  match dims with
  | [] => []
  | d :: ds => let m := fold_right Z.mul 1%Z ds in
               ((k / m) mod d)%Z :: unravel ds k
  end.

Fixpoint set_nth (n : nat) (v : Z) (idx : list Z) : list Z :=
  match n, idx with
  | O, _ :: idx' => v :: idx'
  | S n', i :: idx' => i :: set_nth n' v idx'
  | _, [] => []
  end.

Fixpoint remove_nth (n : nat) (idx : list Z) : list Z :=
  match n, idx with
  | O, _ :: idx' => idx'
  | S n', i :: idx' => i :: remove_nth n' idx'
  | _, [] => []
  end.

(** Index into an operand of shape [s] from an index of the broadcast
    result: leading axes are dropped, axes of size 1 read position 0. *)
Definition bcast_index (s : shape) (idx : list Z) : list Z :=
  map (fun p : dim * Z => if dim_eqb (fst p) (Some 1%Z) then 0%Z else snd p)
      (combine s (skipn (length idx - length s) idx)).

Definition concat_sem (axis : Z) (s : shape) (a b : tensor) : tensor :=
  fun idx =>
    match norm_axis (rank s) axis with
    | Some ax =>
        let i := nth ax idx 0%Z in
        let d := size (nth ax s None) in
        if (i <? d)%Z then a idx else b (set_nth ax (i - d)%Z idx)
    | None => 0
    end.

Definition leaky_relu (alpha : Q) (v : R) : R :=
  if Rle_dec 0 v then v else Q2R alpha * v.

Definition relu (v : R) : R := Rmax 0 v.

Definition sigmoid (v : R) : R := / (1 + exp (- v)).

Definition act (f : act_fn) (v : R) : R :=
  match f with
  | Tanh => tanh v
  | Sigmoid => sigmoid v
  end.

(** Padding in front of an axis under ['same'] (TensorFlow's rule). *)
Definition pad_before (n k s : Z) (p : padding) : Z :=
  match p with
  | Same => (Z.max ((((n + s - 1) / s) - 1) * s + k - n) 0 / 2)%Z
  | Valid => 0%Z
  end.

Definition dense_sem (uid : nat) (use_bias : bool) (s : shape) (x : tensor)
    : tensor :=
  fun idx =>
    let pre := removelast idx in
    let j := last_index idx in
    Zsum (size (last s None))
         (fun i => x (pre ++ [i]) * kernel ctx uid [i; j])
    + (if use_bias then bias ctx uid [j] else 0).

Definition conv2d_sem (uid : nat) (kh kw st : Z) (p : padding)
    (use_bias : bool) (s : shape) (x : tensor) : tensor :=
  fun idx =>
    match idx, s with
    | [b; i; j; f], [_; h; w; c] =>
        let pt := pad_before (size h) kh st p in
        let pl := pad_before (size w) kw st p in
        Zsum kh (fun di => Zsum kw (fun dj => Zsum (size c) (fun ch =>
          let y := (i * st + di - pt)%Z in
          let z := (j * st + dj - pl)%Z in
          (if (0 <=? y)%Z && (y <? size h)%Z && (0 <=? z)%Z && (z <? size w)%Z
           then x [b; y; z; ch] else 0)
          * kernel ctx uid [di; dj; ch; f])))
        + (if use_bias then bias ctx uid [f] else 0)
    | _, _ => 0
    end.

(** Batch normalisation over every axis but the last: with the batch
    statistics while training, with the moving averages otherwise. *)
Definition batch_norm_sem (uid : nat) (s : shape) (x : tensor) : tensor :=
  fun idx =>
    let c := last_index idx in
    let dims := map size (removelast s) in
    let n := IZR (fold_right Z.mul 1%Z dims) in
    let mu := if training ctx
              then sum_over dims (fun pre => x (pre ++ [c])) / n
              else moving_mean ctx uid [c] in
    let var := if training ctx
               then sum_over dims
                      (fun pre => (x (pre ++ [c]) - mu) * (x (pre ++ [c]) - mu))
                    / n
               else moving_var ctx uid [c] in
    gamma ctx uid [c] * ((x idx - mu) / sqrt (var + / 1000)) + beta ctx uid [c].

Definition layer_sem (uid : nat) (l : layer) (ins : list shape)
    (vals : list tensor) : tensor :=
  match l, ins, vals with
  | Dense _ use_bias, [s], [x] => dense_sem uid use_bias s x
  | Conv2D _ kh kw st p use_bias, [s], [x] =>
      conv2d_sem uid kh kw st p use_bias s x
  | BatchNormalization, [s], [x] => batch_norm_sem uid s x
  | LeakyReLU alpha, _, [x] => fun idx => leaky_relu alpha (x idx)
  | ReLU, _, [x] => fun idx => relu (x idx)
  | Activation f, _, [x] => fun idx => act f (x idx)
  | UpSampling2D sh sw, _, [x] =>
      fun idx => match idx with
                 | [b; i; j; c] => x [b; (i / sh)%Z; (j / sw)%Z; c]
                 | _ => 0
                 end
  | ZeroPadding2D ph pw, [[_; h; w; _]], [x] =>
      fun idx => match idx with
                 | [b; i; j; c] =>
                     if (ph <=? i)%Z && (i <? ph + size h)%Z
                        && (pw <=? j)%Z && (j <? pw + size w)%Z
                     then x [b; (i - ph)%Z; (j - pw)%Z; c] else 0
                 | _ => 0
                 end
  | Flatten, [_ :: s], [x] =>
      fun idx => match idx with
                 | [b; k] => x (b :: unravel (map size s) k)
                 | _ => 0
                 end
  | Reshape target, [_ :: s], [x] =>
      fun idx => match idx with
                 | b :: idx' => x (b :: unravel (map size s) (ravel target idx'))
                 | [] => 0
                 end
  | Concatenate axis, [s; _], [a; b] => concat_sem axis s a b
  | Add, [s; t], [a; b] =>
      fun idx => a (bcast_index s idx) + b (bcast_index t idx)
  | Lambda _, _, [body] => body
  | _, _, _ => fun _ => 0
  end.

Definition bop_sem (o : bop) (ins : list shape) (vals : list tensor)
    : tensor :=
  match o, ins, vals with
  | SliceTo _, _, [x] => x
  | SliceFrom start, _, [x] =>
      fun idx => match idx with
                 | b :: j :: idx' => x (b :: (j + start)%Z :: idx')
                 | _ => 0
                 end
  | Exp, _, [x] => fun idx => exp (x idx)
  | RandomNormal _, _, [] => noise ctx
  | Plus, [s; t], [a; b] =>
      fun idx => a (bcast_index s idx) + b (bcast_index t idx)
  | Times, [s; t], [a; b] =>
      fun idx => a (bcast_index s idx) * b (bcast_index t idx)
  | ExpandDims axis, [s], [x] =>
      fun idx => match norm_axis (rank s + 1) axis with
                 | Some ax => x (remove_nth ax idx)
                 | None => 0
                 end
  | Tile _, [s], [x] =>
      fun idx => x (map (fun p : dim * Z => (snd p mod size (fst p))%Z)
                        (combine s idx))
  | KConcatenate axis, [s; _], [a; b] => concat_sem axis s a b
  | _, _, _ => fun _ => 0
  end.

Fixpoint eval (t : ktensor) : tensor :=
  match t with
  | KInput name _ => feed ctx name
  | KLayer uid l _ args => layer_sem uid l (map shape_of args) (map eval args)
  | KOp o _ args => bop_sem o (map shape_of args) (map eval args)
  end.

End Semantics.

End Keras.

(* ================================================================== *)
(** * stack_gan/model.py *)
(* ================================================================== *)

Module StackGAN.

Import Keras.
Local Open Scope Z_scope.
Local Open Scope keras_scope.

(** [conditioning_augmentation(x)], lines 26-41. *)
Definition conditioning_augmentation (x : ktensor) : M ktensor :=
  mean <- backend (SliceTo 128) [x] ;;
  log_sigma <- backend (SliceFrom 128) [x] ;;
  stddev <- backend Exp [log_sigma] ;;
  epsilon <- match nth 1 (shape_of mean) None with      (* mean.shape[1] *)
             | Some n => backend (RandomNormal n) []
             | None => raise UndefinedDim
             end ;;
  scaled <- backend Times [stddev; epsilon] ;;
  c <- backend Plus [mean; scaled] ;;
  ret c.

(** [build_ca_model()], lines 43-54. *)
Definition build_ca_model : M Model :=
  input_layer <- Input "input_layer" [1024] ;;
  x <- call (Dense 256 true) [input_layer] ;;
  x <- call (LeakyReLU (2 # 10)) [x] ;;
  c <- call_lambda "conditioning_augmentation" conditioning_augmentation x ;;
  new_model [input_layer] [c].

(** [UpSamplingBlock(x, num_kernels)], lines 61-75. *)
Definition UpSamplingBlock (x : ktensor) (num_kernels : Z) : M ktensor :=
  x <- call (UpSampling2D 2 2) [x] ;;
  x <- call (Conv2D num_kernels 3 3 1 Same false) [x] ;;
  x <- call BatchNormalization [x] ;;
  x <- call ReLU [x] ;;
  ret x.

(** [build_stage1_generator()], lines 77-106.  Line 93 names its argument
    [conact]; it is the tensor [concat] of line 91.  The second output is
    [ca], the 256-wide tensor before the sampling step. *)
Definition build_stage1_generator : M Model :=
  input_layer1 <- Input "input_layer1" [1024] ;;
  ca <- call (Dense 256 true) [input_layer1] ;;
  ca <- call (LeakyReLU (2 # 10)) [ca] ;;
  c <- call_lambda "conditioning_augmentation" conditioning_augmentation ca ;;
  input_layer2 <- Input "input_layer2" [100] ;;
  concat <- call (Concatenate 1) [c; input_layer2] ;;
  x <- call (Dense 16384 false) [concat] ;;
  x <- call ReLU [x] ;;
  x <- call (Reshape [4; 4; 1024]) [x] ;;
  x <- UpSamplingBlock x 512 ;;
  x <- UpSamplingBlock x 256 ;;
  x <- UpSamplingBlock x 128 ;;
  x <- UpSamplingBlock x 64 ;;
  x <- call (Conv2D 3 3 3 1 Same false) [x] ;;
  x <- call (Activation Tanh) [x] ;;
  new_model [input_layer1; input_layer2] [x; ca].

(** [ConvBlock(x, num_kernels)], lines 113-126. *)
Definition ConvBlock (x : ktensor) (num_kernels : Z) : M ktensor :=
  x <- call (Conv2D num_kernels 4 4 2 Same false) [x] ;;
  x <- call BatchNormalization [x] ;;
  x <- call (LeakyReLU (2 # 10)) [x] ;;
  ret x.

(** [build_stage1_discriminator()], lines 128-158.  Lines 149 and 150
    apply their layers to [x], not to [x1]; that is kept.  The statements
    after the [return] (lines 159-180) are never executed. *)
Definition build_stage1_discriminator : M Model :=
  input_layer1 <- Input "input_layer1" [64; 64; 3] ;;
  x <- call (Conv2D 64 4 4 2 Same false) [input_layer1] ;;
  x <- call (LeakyReLU (2 # 10)) [x] ;;
  x <- ConvBlock x 128 ;;
  x <- ConvBlock x 256 ;;
  x <- ConvBlock x 512 ;;
  input_layer2 <- Input "input_layer2" [4; 4; 128] ;;
  concat <- call (Concatenate (-1)) [x; input_layer2] ;;
  x1 <- call (Conv2D 512 1 1 1 Same false) [concat] ;;
  x1 <- call BatchNormalization [x] ;;
  x1 <- call (LeakyReLU (2 # 10)) [x] ;;
  x1 <- call Flatten [x1] ;;
  x1 <- call (Dense 1 true) [x1] ;;
  x1 <- call (Activation Sigmoid) [x1] ;;
  new_model [input_layer1; input_layer2] [x1].

(** [build_adversarial(generator_model, discriminator_model)],
    lines 187-208.  The unpacking [x, ca = ...] needs two outputs. *)
Definition build_adversarial (generator_model discriminator_model : Model)
    : M Model :=
  input_layer1 <- Input "input_layer1" [1024] ;;
  input_layer2 <- Input "input_layer2" [100] ;;
  input_layer3 <- Input "input_layer3" [4; 4; 128] ;;
  outs <- call_model generator_model [input_layer1; input_layer2] ;;
  match outs with
  | [x; ca] =>
      set_trainable discriminator_model false ;;;
      probabilities <- call_model discriminator_model [x; input_layer3] ;;
      new_model [input_layer1; input_layer2; input_layer3]
                (probabilities ++ [ca])
  | _ => raise RankError
  end.

(** The way a training script uses the composite: build it, compile it,
    run one optimisation step on it.  The script itself stops before
    this; the three steps are the framework's. *)
Definition adversarial_step {W : Type} (generator_model
    discriminator_model : Model) (update : nat -> W -> W)
    (theta : nat -> W) : M (nat -> W) :=
  adversarial_model <- build_adversarial generator_model
                         discriminator_model ;;
  collected <- compile adversarial_model ;;
  ret (train_step collected update theta).

(** [concat_along_dims(inputs)], lines 215-229, with [inputs = [c, x]]. *)
Definition concat_along_dims (c x : ktensor) : M ktensor :=
  c <- backend (ExpandDims 1) [c] ;;
  c <- backend (Tile [1; 16; 16; 1]) [c] ;;
  backend (KConcatenate 3) [c; x].

(** [residual_block(inputs)], lines 231-250.  Line 244 applies the second
    convolution to [inputs]; that is kept. *)
Definition residual_block (inputs : ktensor) : M ktensor :=
  x <- call (Conv2D 512 3 3 1 Same false) [inputs] ;;
  x <- call BatchNormalization [x] ;;
  x <- call ReLU [x] ;;
  x <- call (Conv2D 512 3 3 1 Same false) [inputs] ;;
  x <- call BatchNormalization [x] ;;
  x <- call Add [x; inputs] ;;
  x <- call ReLU [x] ;;
  ret x.

(** [build_stage2_generator()], lines 252-305, parameterised by the
    function that joins the conditioning vector with the encoded image
    (line 282 calls [concat_along_dims]). *)
Definition build_stage2_generator_with
    (join : ktensor -> ktensor -> M ktensor) : M Model :=
  input_layer1 <- Input "input_layer1" [1024] ;;
  input_images <- Input "input_images" [64; 64; 3] ;;
  ca <- call (Dense 256 true) [input_layer1] ;;
  ca <- call (LeakyReLU (2 # 10)) [ca] ;;
  c <- call_lambda "conditioning_augmentation" conditioning_augmentation ca ;;
  x <- call (ZeroPadding2D 1 1) [input_images] ;;
  x <- call (Conv2D 128 3 3 1 Valid false) [x] ;;
  x <- call ReLU [x] ;;
  x <- call (ZeroPadding2D 1 1) [x] ;;
  x <- call (Conv2D 256 4 4 2 Valid false) [x] ;;
  x <- call BatchNormalization [x] ;;
  x <- call ReLU [x] ;;
  x <- call (ZeroPadding2D 1 1) [x] ;;
  x <- call (Conv2D 512 4 4 2 Valid false) [x] ;;
  x <- call BatchNormalization [x] ;;
  x <- call ReLU [x] ;;
  concat <- join c x ;;
  x <- call (ZeroPadding2D 1 1) [concat] ;;
  x <- call (Conv2D 512 3 3 1 Same false) [x] ;;
  x <- call BatchNormalization [x] ;;
  x <- call ReLU [x] ;;
  x <- residual_block x ;;
  x <- residual_block x ;;
  x <- residual_block x ;;
  x <- residual_block x ;;
  x <- UpSamplingBlock x 512 ;;
  x <- UpSamplingBlock x 256 ;;
  x <- UpSamplingBlock x 128 ;;
  x <- UpSamplingBlock x 64 ;;
  x <- call (Conv2D 3 3 3 1 Same false) [x] ;;
  x <- call (Activation Tanh) [x] ;;
  new_model [input_layer1; input_images] [x; ca].

Definition build_stage2_generator : M Model :=
  build_stage2_generator_with concat_along_dims.

End StackGAN.

(* ================================================================== *)
(** * face_app/model.py *)
(* ================================================================== *)

(** The part of Python's [datetime] that [compute_age] calls: the
    conversion of a proleptic Gregorian ordinal to a date ([_ord2ymd]),
    and [fromordinal], which raises outside [1, 3652059]. *)
Module Datetime.

Local Open Scope Z_scope.

Record date := { year : Z; month : Z; day : Z }.

Definition DI400Y := 146097.
Definition DI100Y := 36524.
Definition DI4Y := 1461.
Definition MAXORDINAL := 3652059.

Definition DAYS_IN_MONTH : list Z :=
  [-1; 31; 28; 31; 30; 31; 30; 31; 31; 30; 31; 30; 31].

Definition DAYS_BEFORE_MONTH : list Z :=
  [-1; 0; 31; 59; 90; 120; 151; 181; 212; 243; 273; 304; 334].

Definition table (t : list Z) (i : Z) : Z := nth (Z.to_nat i) t 0.

Definition ord2ymd (n : Z) : date :=
  let n := n - 1 in
  let n400 := n / DI400Y in
  let n := n mod DI400Y in
  let year := n400 * 400 + 1 in
  let n100 := n / DI100Y in
  let n := n mod DI100Y in
  let n4 := n / DI4Y in
  let n := n mod DI4Y in
  let n1 := n / 365 in
  let n := n mod 365 in
  let year := year + n100 * 100 + n4 * 4 + n1 in
  if (n1 =? 4) || (n100 =? 4)
  then {| year := year - 1; month := 12; day := 31 |}
  else
    let leapyear := (n1 =? 3) && (negb (n4 =? 24) || (n100 =? 3)) in
    let month := Z.shiftr (n + 50) 5 in
    let preceding := table DAYS_BEFORE_MONTH month
                     + (if (2 <? month) && leapyear then 1 else 0) in
    if n <? preceding
    then
      let month := month - 1 in
      let preceding :=
        preceding - (table DAYS_IN_MONTH month
                     + (if (month =? 2) && leapyear then 1 else 0)) in
      {| year := year; month := month; day := n - preceding + 1 |}
    else {| year := year; month := month; day := n - preceding + 1 |}.

(** [datetime.fromordinal(n)]; [None] stands for [ValueError]. *)
Definition fromordinal (n : Z) : option date :=
  if (1 <=? n) && (n <=? MAXORDINAL) then Some (ord2ymd n) else None.

End Datetime.

Module FaceApp.

Import Keras.
Local Open Scope Z_scope.
Local Open Scope keras_scope.

(** Python's [int] on a number: truncation towards zero. *)
Definition py_int (q : Q) : Z := Z.quot (Qnum q) (Z.pos (Qden q)).

(** [compute_age(photo_date, dob)], lines 49-56.  [dob] is the serial
    date number the metadata table stores; [None] stands for the
    exception [fromordinal] raises. *)
Definition compute_age (photo_date : Z) (dob : Q) : option Z :=
  match Datetime.fromordinal (Z.max (py_int dob - 366) 1) with
  | Some birth =>
      if Datetime.month birth <? 7
      then Some (photo_date - Datetime.year birth)
      else Some (photo_date - Datetime.year birth - 1)
  | None => None
  end.

(** [encoder()], lines 76-101. *)
Definition encoder : M Model :=
  input_layer <- Input "input_layer" [64; 64; 3] ;;
  x <- call (Conv2D 32 5 5 2 Same true) [input_layer] ;;
  x <- call (LeakyReLU (2 # 10)) [x] ;;
  x <- call (Conv2D 64 5 5 2 Same true) [input_layer] ;;
  x <- call BatchNormalization [x] ;;
  x <- call (LeakyReLU (2 # 10)) [x] ;;
  x <- call (Conv2D 128 5 5 2 Same true) [input_layer] ;;
  x <- call BatchNormalization [x] ;;
  x <- call (LeakyReLU (2 # 10)) [x] ;;
  x <- call (Conv2D 256 5 5 2 Same true) [input_layer] ;;
  x <- call BatchNormalization [x] ;;
  x <- call (LeakyReLU (2 # 10)) [x] ;;
  x <- call Flatten [x] ;;
  x <- call (Dense 4096 true) [x] ;;
  x <- call BatchNormalization [x] ;;
  x <- call (LeakyReLU (2 # 10)) [x] ;;
  x <- call (Dense 100 true) [x] ;;
  new_model [input_layer] [x].

(** The smaller network the encoder is compared with: the encoder
    without its 32-, 64- and 128-filter convolution blocks. *)
Definition encoder_256_only : M Model :=
  input_layer <- Input "input_layer" [64; 64; 3] ;;
  x <- call (Conv2D 256 5 5 2 Same true) [input_layer] ;;
  x <- call BatchNormalization [x] ;;
  x <- call (LeakyReLU (2 # 10)) [x] ;;
  x <- call Flatten [x] ;;
  x <- call (Dense 4096 true) [x] ;;
  x <- call BatchNormalization [x] ;;
  x <- call (LeakyReLU (2 # 10)) [x] ;;
  x <- call (Dense 100 true) [x] ;;
  new_model [input_layer] [x].

(** [expand_dims(label)], lines 155-158. *)
Definition expand_dims (label : ktensor) : M ktensor :=
  label <- backend (ExpandDims 1) [label] ;;
  label <- backend (ExpandDims 1) [label] ;;
  backend (Tile [1; 32; 32; 1]) [label].

(** [adversarial(generator, discriminator)], lines 190-201.  Both models
    are used as single-output models. *)
Definition adversarial (generator discriminator : Model) : M Model :=
  latent_space <- Input "latent_space" [100] ;;
  conditioning_variable <- Input "conditioning_variable" [6] ;;
  set_trainable discriminator false ;;;
  outs <- call_model generator [latent_space; conditioning_variable] ;;
  match outs with
  | [reconstructed] =>
      outs <- call_model discriminator
                [reconstructed; conditioning_variable] ;;
      match outs with
      | [valid] =>
          set_trainable discriminator true ;;;
          new_model [latent_space; conditioning_variable] [valid]
      | _ => raise RankError
      end
  | _ => raise RankError
  end.

(** Lines 233-234 of [main]: the composite is built, then compiled.  The
    result is the set of weights a training step of the composite
    updates. *)
Definition main_adversarial (generator discriminator : Model)
    : M (Model * list nat) :=
  adversarial_model <- adversarial generator discriminator ;;
  collected <- compile adversarial_model ;;
  ret (adversarial_model, collected).

(** [Dropout(rate)]: a layer without weights that keeps the shape of its
    input and is the identity outside training.  It is recorded as a
    weightless call under its own name, so the values of a graph that
    contains it are those of inference. *)
Definition Dropout (x : ktensor) : M ktensor :=
  call (Lambda "Dropout(0.2)") [x].

(** [generator()], lines 104-137.  [momentum] of the normalisation layers
    only steers the moving averages. *)
Definition generator : M Model :=
  latent_vector <- Input "latent_vector" [100] ;;
  conditioning_variable <- Input "conditioning_variable" [6] ;;
  x <- call (Concatenate (-1)) [latent_vector; conditioning_variable] ;;
  x <- call (Dense 20148 true) [x] ;;
  x <- call (LeakyReLU (2 # 10)) [x] ;;
  x <- Dropout x ;;
  x <- call (Dense 16384 true) [x] ;;
  x <- call BatchNormalization [x] ;;
  x <- call (LeakyReLU (2 # 10)) [x] ;;
  x <- Dropout x ;;
  x <- call (Reshape [8; 8; 256]) [x] ;;
  x <- call (UpSampling2D 2 2) [x] ;;
  x <- call (Conv2D 128 5 5 1 Same true) [x] ;;
  x <- call BatchNormalization [x] ;;
  x <- call (LeakyReLU (2 # 10)) [x] ;;
  x <- call (UpSampling2D 2 2) [x] ;;
  x <- call (Conv2D 64 5 5 1 Same true) [x] ;;
  x <- call BatchNormalization [x] ;;
  x <- call (LeakyReLU (2 # 10)) [x] ;;
  x <- call (UpSampling2D 2 2) [x] ;;
  x <- call (Conv2D 64 5 5 1 Same true) [x] ;;
  x <- call (Activation Tanh) [x] ;;
  new_model [latent_vector; conditioning_variable] [x].

(** [discriminator()], lines 160-187.  Line 169 rebinds [label] to the
    broadcast map, and line 187 lists that tensor as the second input of
    the model ([images] there is the tensor [image] of line 163).
    [Dense(1, activation='sigmoid')] is the affine layer followed by its
    activation. *)
Definition discriminator : M Model :=
  image <- Input "image" [64; 64; 3] ;;
  label <- Input "label" [6] ;;
  x <- call (Conv2D 64 3 3 2 Same true) [image] ;;
  x <- call (LeakyReLU (2 # 10)) [x] ;;
  label <- call_lambda "expand_dims" expand_dims label ;;
  x <- call (Concatenate 3) [x; label] ;;
  x <- call (Conv2D 128 3 3 2 Same true) [x] ;;
  x <- call BatchNormalization [x] ;;
  x <- call (LeakyReLU (2 # 10)) [x] ;;
  x <- call (Conv2D 256 3 3 2 Same true) [x] ;;
  x <- call BatchNormalization [x] ;;
  x <- call (LeakyReLU (2 # 10)) [x] ;;
  x <- call (Conv2D 512 3 3 2 Same true) [x] ;;
  x <- call BatchNormalization [x] ;;
  x <- call (LeakyReLU (2 # 10)) [x] ;;
  x <- call Flatten [x] ;;
  x <- call (Dense 1 true) [x] ;;
  x <- call (Activation Sigmoid) [x] ;;
  new_model [image; label] [x].

(** The three columns of the metadata table [load_data] reads: one array
    of path strings per photo, the dates of birth, the photo years. *)
Record wiki := {
  full_path : list (list string);
  dob : list Q;
  photo_taken : list Z
}.

Inductive pyexn := IndexError | ValueError.

(** [a[i]] for [i >= 0]. *)
Definition getitem {A : Type} (a : list A) (i : nat) : pyexn + A :=
  match nth_error a i with
  | Some v => inr v
  | None => inl IndexError
  end.

(** [[f(i) for i in l]]: the first exception ends the loop. *)
Fixpoint comprehension {A B : Type} (f : A -> pyexn + B) (l : list A)
    : pyexn + list B :=
  match l with
  | [] => inr []
  | a :: l' => match f a with
               | inl e => inl e
               | inr b => match comprehension f l' with
                          | inl e => inl e
                          | inr bs => inr (b :: bs)
                          end
               end
  end.

(** The loop of lines 70-72 from position [i] on; [images] and
    [ages_list] are the lists appended to so far. *)
Fixpoint load_loop (calculated_age : list Z) (paths : list (list string))
    (i : nat) (images : list string) (ages_list : list Z)
    : pyexn + (list string * list Z) :=
  match paths with
  | [] => inr (images, ages_list)
  | image_path :: paths' =>
      match getitem image_path 0 with
      | inl e => inl e
      | inr p =>
          match getitem calculated_age i with
          | inl e => inl e
          | inr a => load_loop calculated_age paths' (S i)
                       (images ++ [p]) (ages_list ++ [a])
          end
      end
  end.

(** [load_data(path)], lines 58-74, on the table read from the file
    ([meta] of line 63 is the table [metadata] of line 61). *)
Definition load_data (metadata : wiki) : pyexn + (list string * list Z) :=
  let paths := full_path metadata in
  let dob := dob metadata in
  let photo_date := photo_taken metadata in
  match comprehension
          (fun i => match getitem photo_date i with
                    | inl e => inl e
                    | inr p =>
                        match getitem dob i with
                        | inl e => inl e
                        | inr d => match compute_age p d with
                                   | Some a => inr a
                                   | None => inl ValueError
                                   end
                        end
                    end)
          (seq 0 (length dob)) with
  | inl e => inl e
  | inr calculated_age => load_loop calculated_age paths 0 [] []
  end.

End FaceApp.

(* ================================================================== *)
(** * Properties *)
(* ================================================================== *)

Import Keras.

(** ** Ranges of the output activations *)

Section Activations.

Local Open Scope R_scope.

Lemma tanh_range (x : R) : -1 <= tanh x <= 1.
Proof.
  unfold tanh, sinh, cosh.
  pose proof (exp_pos x) as Hp.
  pose proof (exp_pos (- x)) as Hn.
  set (p := exp x) in *. set (n := exp (- x)) in *.
  replace ((p - n) / 2 / ((p + n) / 2)) with ((p - n) / (p + n))
    by (field; lra).
  split.
  - apply Rmult_le_reg_r with (p + n); [lra|].
    unfold Rdiv. rewrite Rmult_assoc, Rinv_l by lra. lra.
  - apply Rmult_le_reg_r with (p + n); [lra|].
    unfold Rdiv. rewrite Rmult_assoc, Rinv_l by lra. lra.
Qed.

Lemma sigmoid_range (x : R) : 0 <= sigmoid x <= 1.
Proof.
  unfold sigmoid.
  pose proof (exp_pos (- x)) as Hn.
  split.
  - left. apply Rinv_0_lt_compat. lra.
  - rewrite <- Rinv_1 at 2. apply Rinv_le_contravar; lra.
Qed.

(** One step of [eval] at a layer call, without unfolding the argument. *)
Lemma eval_layer ctx uid l sh args :
  eval ctx (KLayer uid l sh args)
  = layer_sem ctx uid l (map shape_of args) (map (eval ctx) args).
Proof. reflexivity. Qed.

Lemma eval_op ctx o sh args :
  eval ctx (KOp o sh args)
  = bop_sem ctx o (map shape_of args) (map (eval ctx) args).
Proof. reflexivity. Qed.

Lemma eval_activation ctx uid f sh x idx :
  eval ctx (KLayer uid (Activation f) sh [x]) idx = act f (eval ctx x idx).
Proof. reflexivity. Qed.

End Activations.

(** ** Stage-1 generator *)

(** A positive number of filters is accepted by [Conv2D]. *)
Lemma filters_positive (k : Z) : (0 < k)%Z -> (k <=? 0)%Z = false.
Proof. intros H. apply Z.leb_gt. exact H. Qed.

(** An upsample block with a positive number of kernels, applied to a
    feature map of known height, width and channel count, doubles height
    and width and sets the channel count; it creates four layers.  On a
    feature map whose channel count is unknown its convolution cannot be
    built and the block raises. *)
Lemma UpSamplingBlock_doubles (x : ktensor) (b : dim) (h w k : Z)
    (s : kstate) :
  (0 < h)%Z -> (0 < w)%Z -> (0 < k)%Z ->
  (forall c : Z, (0 < c)%Z ->
     shape_of x = [b; Some h; Some w; Some c] ->
     exists y s',
       StackGAN.UpSamplingBlock x k s = inr (y, s')
       /\ shape_of y = [b; Some (h * 2)%Z; Some (w * 2)%Z; Some k]
       /\ next_uid s' = (next_uid s + 4)%nat)
  /\ (shape_of x = [b; Some h; Some w; None] ->
      StackGAN.UpSamplingBlock x k s = inl UndefinedDim).
Proof.
  intros Hh Hw Hk. split.
  - intros c Hc Hx.
    unfold StackGAN.UpSamplingBlock, bind, call, ret. cbn.
    rewrite Hx. cbn. rewrite (filters_positive Hk). cbn.
    rewrite !Z.add_simpl_r, !Z.div_1_r.
    eexists. eexists. split; [reflexivity|].
    split; [reflexivity|]. cbn. lia.
  - intros Hx.
    unfold StackGAN.UpSamplingBlock, bind, call, ret. cbn.
    rewrite Hx. cbn. rewrite (filters_positive Hk). reflexivity.
Qed.

(** C1.  [build_stage1_generator] returns a model over a 1024-wide
    embedding and a 100-wide noise vector whose first output, the image,
    has shape 64x64x3; the image is computed by a reshape to 4x4x1024,
    four upsample blocks (8, 16, 32, 64 pixels a side), a convolution to
    3 channels and a tanh, so every entry lies in [-1, 1] whatever the
    weights and the inputs are. *)
Theorem stage1_generator_image :
  exists g s img ca,
    run StackGAN.build_stage1_generator = inr (g, s)
    /\ inputs g = [KInput "input_layer1" (vec 1024);
                   KInput "input_layer2" (vec 100)]
    /\ outputs g = [img; ca]
    /\ shape_of img = nhwc 64 64 3
    /\ spine img =
         [(Activation Tanh, nhwc 64 64 3);
          (Conv2D 3 3 3 1 Same false, nhwc 64 64 3);
          (ReLU, nhwc 64 64 64);
          (BatchNormalization, nhwc 64 64 64);
          (Conv2D 64 3 3 1 Same false, nhwc 64 64 64);
          (UpSampling2D 2 2, nhwc 64 64 128);
          (ReLU, nhwc 32 32 128);
          (BatchNormalization, nhwc 32 32 128);
          (Conv2D 128 3 3 1 Same false, nhwc 32 32 128);
          (UpSampling2D 2 2, nhwc 32 32 256);
          (ReLU, nhwc 16 16 256);
          (BatchNormalization, nhwc 16 16 256);
          (Conv2D 256 3 3 1 Same false, nhwc 16 16 256);
          (UpSampling2D 2 2, nhwc 16 16 512);
          (ReLU, nhwc 8 8 512);
          (BatchNormalization, nhwc 8 8 512);
          (Conv2D 512 3 3 1 Same false, nhwc 8 8 512);
          (UpSampling2D 2 2, nhwc 8 8 1024);
          (Reshape [4; 4; 1024]%Z, nhwc 4 4 1024);
          (ReLU, vec 16384);
          (Dense 16384 false, vec 16384);
          (Concatenate 1, vec 228);
          (Lambda "conditioning_augmentation", vec 128)]
    /\ forall (ctx : world) (idx : list Z),
         (-1 <= eval ctx img idx <= 1)%R.
Proof.
  do 4 eexists.
  split; [vm_compute; reflexivity|].
  split; [reflexivity|].
  split; [reflexivity|].
  split; [reflexivity|].
  split; [vm_compute; reflexivity|].
  intros ctx idx. rewrite eval_activation. apply tanh_range.
Qed.

Lemma UpSamplingBlock_doubles_witness :
  (exists y s',
      StackGAN.UpSamplingBlock (KInput "x" (nhwc 4 4 1024)) 512 init_state
      = inr (y, s')
      /\ shape_of y = nhwc 8 8 512)
  /\ StackGAN.UpSamplingBlock
       (KInput "x" [None; Some 4%Z; Some 4%Z; None]) 512 init_state
     = inl UndefinedDim.
Proof.
  split.
  - destruct (proj1 (@UpSamplingBlock_doubles (KInput "x" (nhwc 4 4 1024))
                       None 4 4 512 init_state eq_refl eq_refl eq_refl)
                1024%Z eq_refl eq_refl)
      as (y & s' & Hrun & Hshape & _).
    exists y, s'. split; [exact Hrun | exact Hshape].
  - exact (proj2 (@UpSamplingBlock_doubles
                    (KInput "x" [None; Some 4%Z; Some 4%Z; None])
                    None 4 4 512 init_state eq_refl eq_refl eq_refl)
                 eq_refl).
Defined.

(** The second output of the Stage-1 generator is [ca], the 256-wide
    output of the leaky rectifier (mean and log_sigma side by side), not
    the 128-wide sampled vector [c]. *)
Lemma stage1_generator_second_output :
  exists g s img ca,
    run StackGAN.build_stage1_generator = inr (g, s)
    /\ outputs g = [img; ca]
    /\ shape_of ca = vec 256
    /\ ca = KLayer 1 (LeakyReLU (2 # 10)) (vec 256)
              [KLayer 0 (Dense 256 true) (vec 256)
                 [KInput "input_layer1" (vec 1024)]].
Proof.
  do 4 eexists.
  split; [vm_compute; reflexivity|].
  split; [reflexivity|].
  split; reflexivity.
Qed.

(** ** Conditioning augmentation *)

(** C2.  [build_ca_model] projects the 1024-wide embedding through one
    affine layer of 256 units followed by a leaky rectifier of slope 0.2;
    the sampling step reads the first 128 entries of that vector as the
    mean and the last 128 as log_sigma, draws 128 noise values, and
    returns mean + exp(log_sigma) * noise, a vector of 128 = 256 / 2
    entries. *)
Theorem conditioning_augmentation_formula :
  exists m s proj c,
    run StackGAN.build_ca_model = inr (m, s)
    /\ inputs m = [KInput "input_layer" (vec 1024)]
    /\ outputs m = [c]
    /\ proj = KLayer 1 (LeakyReLU (2 # 10)) (vec 256)
                [KLayer 0 (Dense 256 true) (vec 256)
                   [KInput "input_layer" (vec 1024)]]
    /\ c = KLayer 2 (Lambda "conditioning_augmentation") (vec 128)
             [KOp Plus (vec 128)
                [KOp (SliceTo 128) (vec 128) [proj];
                 KOp Times (vec 128)
                   [KOp Exp (vec 128)
                      [KOp (SliceFrom 128) (vec 128) [proj]];
                    KOp (RandomNormal 128) [Some 128%Z] []]]]
    /\ shape_of proj = vec (2 * 128)
    /\ shape_of c = vec 128
    /\ (forall (ctx : world) (b k : Z),
          eval ctx proj [b; k]
          = leaky_relu (2 # 10)
              (Zsum 1024 (fun i => feed ctx "input_layer" [b; i]
                                   * kernel ctx 0%nat [i; k])
               + bias ctx 0%nat [k]))%R
    /\ (forall (ctx : world) (b j : Z),
          eval ctx c [b; j]
          = eval ctx proj [b; j]
            + exp (eval ctx proj [b; (j + 128)%Z]) * noise ctx [j])%R.
Proof.
  do 4 eexists.
  split; [vm_compute; reflexivity|].
  split; [reflexivity|].
  split; [reflexivity|].
  split; [reflexivity|].
  split; [reflexivity|].
  split; [reflexivity|].
  split; [reflexivity|].
  split; intros; reflexivity.
Qed.

Lemma scaled_noise_injective (m e n1 n2 : R) :
  (0 < e -> m + e * n1 = m + e * n2 -> n1 = n2)%R.
Proof.
  intros He H. apply Rmult_eq_reg_l with e; lra.
Qed.

(** C8.  The output of conditioning augmentation at position [j] is a
    function of the embedding, the weights and the [j]-th noise value:
    two evaluations with the same injected noise agree, two evaluations
    whose noise differs at [j] differ at [j], and for every embedding
    there are two draws that give different outputs. *)
Theorem conditioning_augmentation_noise :
  exists m s c,
    run StackGAN.build_ca_model = inr (m, s)
    /\ outputs m = [c]
    /\ (forall (ctx : world) (n1 n2 : tensor) (b j : Z),
          n1 [j] = n2 [j] ->
          eval (with_noise ctx n1) c [b; j]
          = eval (with_noise ctx n2) c [b; j])
    /\ (forall (ctx : world) (n1 n2 : tensor) (b j : Z),
          n1 [j] <> n2 [j] ->
          eval (with_noise ctx n1) c [b; j]
          <> eval (with_noise ctx n2) c [b; j])
    /\ (forall (ctx : world) (b j : Z),
          exists n1 n2 : tensor,
            eval (with_noise ctx n1) c [b; j]
            <> eval (with_noise ctx n2) c [b; j]).
Proof.
  do 3 eexists.
  split; [vm_compute; reflexivity|].
  split; [reflexivity|].
  match goal with
  | |- context [eval _ (KLayer _ (Lambda _) _
                          [KOp Plus _ [KOp (SliceTo _) _ [?p]; _]])] =>
      set (proj := p)
  end.
  match goal with
  | |- context [eval _ ?t [_; _]] => set (c := t)
  end.
  assert (E : forall ctx n b j,
             eval (with_noise ctx n) c [b; j]
             = (eval ctx proj [b; j]
                + exp (eval ctx proj [b; (j + 128)%Z]) * n [j])%R)
    by (intros; reflexivity).
  assert (D : forall (ctx : world) (n1 n2 : tensor) (b j : Z),
             n1 [j] <> n2 [j] ->
             eval (with_noise ctx n1) c [b; j]
             <> eval (with_noise ctx n2) c [b; j]).
  { intros ctx n1 n2 b j Hn Heq. rewrite !E in Heq.
    apply Hn. eapply scaled_noise_injective; [apply exp_pos | exact Heq]. }
  split; [|split].
  - intros ctx n1 n2 b j Hn. rewrite !E, Hn. reflexivity.
  - exact D.
  - intros ctx b j. exists (fun _ => 0%R), (fun _ => 1%R).
    apply D. lra.
Qed.

Lemma conditioning_augmentation_noise_witness :
  exists m s c,
    run StackGAN.build_ca_model = inr (m, s)
    /\ outputs m = [c]
    /\ eval (with_noise zero_world (fun _ => 0%R)) c [0; 5]%Z
       = eval (with_noise zero_world (fun _ => 0%R)) c [0; 5]%Z
    /\ eval (with_noise zero_world (fun _ => 0%R)) c [0; 5]%Z
       <> eval (with_noise zero_world (fun _ => 1%R)) c [0; 5]%Z.
Proof.
  destruct conditioning_augmentation_noise
    as (m & s & c & Hrun & Hout & Hdet & Hdiff & _).
  exists m, s, c.
  split; [exact Hrun|]. split; [exact Hout|]. split.
  - apply (Hdet zero_world (fun _ => 0%R) (fun _ => 0%R) 0%Z 5%Z).
    reflexivity.
  - apply (Hdiff zero_world (fun _ => 0%R) (fun _ => 1%R) 0%Z 5%Z).
    lra.
Defined.

(** ** Stage-1 discriminator *)

(** The value of a tensor depends on the placeholders it is computed
    from and on no other. *)
Lemma eval_feed_ext (ctx : world) (f1 f2 : string -> tensor) (t : ktensor) :
  (forall name, In name (inputs_of t) -> f1 name = f2 name) ->
  eval (with_feed ctx f1) t = eval (with_feed ctx f2) t.
Proof.
  induction t as [name sh | uid l sh args IH | o sh args IH]
    using ktensor_induction; intros Hf.
  - apply Hf. left. reflexivity.
  - rewrite !eval_layer.
    change (layer_sem (with_feed ctx f1)) with (layer_sem ctx).
    change (layer_sem (with_feed ctx f2)) with (layer_sem ctx).
    f_equal. apply map_ext_in. intros a Ha.
    rewrite Forall_forall in IH. apply IH; [exact Ha|].
    intros name Hn. apply Hf. cbn. apply in_flat_map. eauto.
  - rewrite !eval_op.
    change (bop_sem (with_feed ctx f1)) with (bop_sem ctx).
    change (bop_sem (with_feed ctx f2)) with (bop_sem ctx).
    f_equal. apply map_ext_in. intros a Ha.
    rewrite Forall_forall in IH. apply IH; [exact Ha|].
    intros name Hn. apply Hf. cbn. apply in_flat_map. eauto.
Qed.

(** C3.  [build_stage1_discriminator] does not compute its output from
    the block over the concatenation.  Four downsampling convolutions (the
    first without normalisation, then three [ConvBlock]s) take the image
    to the 4x4x512 features [x]; line 146 concatenates [x] with the
    conditioning map (640 channels) and line 148 applies the 1x1
    convolution to the concatenation.  Lines 149 and 150 then apply the
    normalisation and the leaky rectifier to [x] again, not to [x1]: the
    tensor that is flattened is the rectifier of line 150 applied to [x].
    The concatenation, the 1x1 convolution and the normalisation of line
    149 are called (they are in the trace of the build) but are not among
    the layers the output is computed with; the conditioning map is no
    input of the output, which takes the same value on any two
    conditioning maps.  The output is one sigmoid scalar per sample, in
    [0, 1]. *)
Theorem stage1_discriminator_drops_conditioning :
  exists d s out x concat fused,
    run StackGAN.build_stage1_discriminator = inr (d, s)
    /\ inputs d = [KInput "input_layer1" (nhwc 64 64 3);
                   KInput "input_layer2" (nhwc 4 4 128)]
    /\ outputs d = [out]
    /\ shape_of out = vec 1
    /\ out = KLayer 17 (Activation Sigmoid) (vec 1)
               [KLayer 16 (Dense 1 true) (vec 1)
                  [KLayer 15 Flatten (vec 8192)
                     [KLayer 14 (LeakyReLU (2 # 10)) (nhwc 4 4 512) [x]]]]
    /\ spine x =
         [(LeakyReLU (2 # 10), nhwc 4 4 512);
          (BatchNormalization, nhwc 4 4 512);
          (Conv2D 512 4 4 2 Same false, nhwc 4 4 512);
          (LeakyReLU (2 # 10), nhwc 8 8 256);
          (BatchNormalization, nhwc 8 8 256);
          (Conv2D 256 4 4 2 Same false, nhwc 8 8 256);
          (LeakyReLU (2 # 10), nhwc 16 16 128);
          (BatchNormalization, nhwc 16 16 128);
          (Conv2D 128 4 4 2 Same false, nhwc 16 16 128);
          (LeakyReLU (2 # 10), nhwc 32 32 64);
          (Conv2D 64 4 4 2 Same false, nhwc 32 32 64)]
    /\ inputs_of x = ["input_layer1"%string]
    /\ concat = KLayer 11 (Concatenate (-1)) (nhwc 4 4 640)
                  [x; KInput "input_layer2" (nhwc 4 4 128)]
    /\ fused = KLayer 12 (Conv2D 512 1 1 1 Same false) (nhwc 4 4 512)
                 [concat]
    /\ nth_error (trace s) 11 = Some concat
    /\ nth_error (trace s) 12 = Some fused
    /\ nth_error (trace s) 13
       = Some (KLayer 13 BatchNormalization (nhwc 4 4 512) [x])
    /\ length (trace s) = 18%nat
    /\ layers_of out = [17; 16; 15; 14; 10; 9; 8; 7; 6; 5; 4; 3; 2; 1; 0]%nat
    /\ inputs_of out = ["input_layer1"%string]
    /\ (forall (ctx : world) (f1 f2 : string -> tensor),
          f1 "input_layer1"%string = f2 "input_layer1"%string ->
          eval (with_feed ctx f1) out = eval (with_feed ctx f2) out)
    /\ (let maps (v : R) (name : string) : tensor :=
          if String.eqb name "input_layer2" then fun _ => v
          else fun _ => 0%R in
        eval (with_feed zero_world (maps 0%R)) out
        = eval (with_feed zero_world (maps 1%R)) out)
    /\ (forall (ctx : world) (idx : list Z),
          (0 <= eval ctx out idx <= 1)%R).
Proof.
  do 6 eexists.
  split; [vm_compute; reflexivity|].
  split; [reflexivity|].
  split; [reflexivity|].
  split; [reflexivity|].
  split; [reflexivity|].
  split; [vm_compute; reflexivity|].
  split; [vm_compute; reflexivity|].
  split; [reflexivity|].
  split; [reflexivity|].
  split; [reflexivity|].
  split; [reflexivity|].
  split; [reflexivity|].
  split; [reflexivity|].
  split; [vm_compute; reflexivity|].
  match goal with
  | |- inputs_of ?t = _ /\ _ => set (out := t)
  end.
  assert (Hout : inputs_of out = ["input_layer1"%string])
    by (vm_compute; reflexivity).
  assert (Hext : forall (ctx : world) (f1 f2 : string -> tensor),
             f1 "input_layer1"%string = f2 "input_layer1"%string ->
             eval (with_feed ctx f1) out = eval (with_feed ctx f2) out).
  { intros ctx f1 f2 Hf. apply eval_feed_ext. rewrite Hout.
    intros name [<- | []]. exact Hf. }
  split; [exact Hout|]. split; [exact Hext|].
  split; [cbv zeta; apply Hext; reflexivity|].
  intros ctx idx. unfold out. rewrite eval_activation. apply sigmoid_range.
Qed.

(** ** Residual block and Stage-2 generator *)

Lemma merge_dim_diag (d : dim) : merge_dim d d = inr d.
Proof.
  destruct d as [n|]; cbn; [rewrite Z.eqb_refl|]; reflexivity.
Qed.

Lemma conv_dim_same_stride1 (d : dim) (k : Z) :
  conv_dim d k 1 Same = inr d.
Proof.
  destruct d as [n|]; cbn; [|reflexivity].
  rewrite Z.add_simpl_r, Z.div_1_r. reflexivity.
Qed.

(** C7.  On a 4-D feature map with 512 channels, [residual_block]
    succeeds and returns a tensor of the shape of its input: the rectified
    sum of the input and of a normalised 3x3 convolution of the input.
    It makes seven layer calls (convolution, normalisation, rectifier,
    convolution, normalisation, sum, rectifier), all of that shape. *)
Theorem residual_block_shape (inputs : ktensor) (b h w : dim) (s : kstate) :
  shape_of inputs = [b; h; w; Some 512%Z] ->
  exists x s',
    StackGAN.residual_block inputs s = inr (x, s')
    /\ shape_of x = shape_of inputs
    /\ calls_of s' =
         calls_of s
         ++ [(Conv2D 512 3 3 1 Same false, shape_of inputs);
             (BatchNormalization, shape_of inputs);
             (ReLU, shape_of inputs);
             (Conv2D 512 3 3 1 Same false, shape_of inputs);
             (BatchNormalization, shape_of inputs);
             (Add, shape_of inputs);
             (ReLU, shape_of inputs)]
    /\ exists u1 u2 u3 u4,
         x = KLayer u4 ReLU (shape_of inputs)
               [KLayer u3 Add (shape_of inputs)
                  [KLayer u2 BatchNormalization (shape_of inputs)
                     [KLayer u1 (Conv2D 512 3 3 1 Same false)
                        (shape_of inputs) [inputs]];
                   inputs]].
Proof.
  intros Hin.
  unfold StackGAN.residual_block, bind, call, ret, record. cbn.
  rewrite Hin. cbn.
  rewrite !conv_dim_same_stride1. cbn.
  rewrite !merge_dim_diag. cbn.
  do 2 eexists. split; [reflexivity|]. split; [reflexivity|].
  split.
  - unfold calls_of. cbn. rewrite !flat_map_app. cbn.
    rewrite <- !app_assoc. reflexivity.
  - do 4 eexists. reflexivity.
Qed.

Lemma residual_block_shape_witness :
  exists x s',
    StackGAN.residual_block (KInput "x" (nhwc 16 16 512)) init_state
    = inr (x, s')
    /\ shape_of x = nhwc 16 16 512.
Proof.
  destruct (@residual_block_shape (KInput "x" (nhwc 16 16 512))
              None (Some 16%Z) (Some 16%Z) init_state eq_refl)
    as (x & s' & Hrun & Hshape & _).
  exists x, s'. split; [exact Hrun | exact Hshape].
Defined.

(** The tensor [residual_block] returns is computed with four of the
    seven layers the block creates: its first convolution, normalisation
    and rectifier (the three oldest ids) are not among them. *)
Lemma residual_block_first_stage_unused (inputs : ktensor) (b h w : dim)
    (s : kstate) :
  shape_of inputs = [b; h; w; Some 512%Z] ->
  exists x s',
    StackGAN.residual_block inputs s = inr (x, s')
    /\ next_uid s' = (next_uid s + 7)%nat
    /\ layers_of x =
         [next_uid s + 6; next_uid s + 5; next_uid s + 4; next_uid s + 3]%nat
         ++ layers_of inputs ++ layers_of inputs.
Proof.
  intros Hin.
  unfold StackGAN.residual_block, bind, call, ret, record. cbn.
  rewrite Hin. cbn.
  rewrite !conv_dim_same_stride1. cbn.
  rewrite !merge_dim_diag. cbn.
  do 2 eexists. split; [reflexivity|]. cbn.
  rewrite !app_nil_r.
  replace (next_uid s + 7)%nat with (S (S (S (S (S (S (S (next_uid s))))))))
    by lia.
  replace (next_uid s + 6)%nat with (S (S (S (S (S (S (next_uid s)))))))
    by lia.
  replace (next_uid s + 5)%nat with (S (S (S (S (S (next_uid s))))))
    by lia.
  replace (next_uid s + 4)%nat with (S (S (S (S (next_uid s))))) by lia.
  replace (next_uid s + 3)%nat with (S (S (S (next_uid s)))) by lia.
  split; reflexivity.
Qed.

Lemma residual_block_first_stage_unused_witness :
  exists x s',
    StackGAN.residual_block (KInput "x" (nhwc 16 16 512)) init_state
    = inr (x, s')
    /\ layers_of x = [6; 5; 4; 3]%nat.
Proof.
  destruct (@residual_block_first_stage_unused (KInput "x" (nhwc 16 16 512))
              None (Some 16%Z) (Some 16%Z) init_state eq_refl)
    as (x & s' & Hrun & _ & Hl).
  exists x, s'. split; [exact Hrun | exact Hl].
Defined.

(** C6, where the code departs from it.  [concat_along_dims] expands the
    conditioning tensor once, so a batch of vectors becomes a tensor of
    three axes, and [K.tile] with four multiples raises on it: no joint
    feature map is produced, whatever the encoded image is. *)
Theorem concat_along_dims_raises (c x : ktensor) (b d : dim) (s : kstate) :
  shape_of c = [b; d] ->
  StackGAN.concat_along_dims c x s = inl RankError.
Proof.
  intros Hc.
  unfold StackGAN.concat_along_dims, bind, backend. cbn.
  rewrite Hc. cbn. reflexivity.
Qed.

Lemma concat_along_dims_raises_witness :
  StackGAN.concat_along_dims (KInput "c" (vec 128))
    (KInput "x" (nhwc 16 16 512)) init_state
  = inl RankError.
Proof.
  apply (@concat_along_dims_raises (KInput "c" (vec 128))
           (KInput "x" (nhwc 16 16 512)) None (Some 128%Z) init_state).
  reflexivity.
Defined.

(** The label broadcast of [face_app/model.py] expands twice before it
    tiles, and succeeds. *)
Lemma expand_dims_broadcasts (s : kstate) :
  exists t,
    FaceApp.expand_dims (KInput "label" (vec 6)) s = inr (t, s)
    /\ shape_of t = nhwc 32 32 6.
Proof.
  eexists. split; reflexivity.
Qed.

(** C5, where the code departs from it.  [build_stage2_generator] raises
    at line 282, in [concat_along_dims], before any image tensor
    exists. *)
Theorem stage2_generator_build_raises :
  run StackGAN.build_stage2_generator = inl RankError.
Proof.
  vm_compute. reflexivity.
Qed.

(** With a join that expands both spatial axes before tiling, the build
    succeeds, the encoded image is 16x16x512 and the joint map 16x16x640,
    but the padding of line 285 followed by a ['same'] convolution widens
    the map to 18x18, and the four upsample blocks end at 288x288x3. *)
Lemma stage2_generator_with_rank4_join :
  let join (c x : ktensor) : M ktensor :=
    bind (backend (ExpandDims 1) [c]) (fun c =>
    bind (backend (ExpandDims 1) [c]) (fun c =>
    bind (backend (Tile [1; 16; 16; 1]%Z) [c]) (fun c =>
    backend (KConcatenate 3) [c; x]))) in
  exists g s img ca,
    run (StackGAN.build_stage2_generator_with join) = inr (g, s)
    /\ outputs g = [img; ca]
    /\ shape_of img = nhwc 288 288 3
    /\ In (ZeroPadding2D 1 1, nhwc 18 18 640) (calls_of s)
    /\ In (Conv2D 512 4 4 2 Valid false, nhwc 16 16 512) (calls_of s)
    /\ forall (ctx : world) (idx : list Z),
         (-1 <= eval ctx img idx <= 1)%R.
Proof.
  cbv zeta. do 4 eexists.
  split; [vm_compute; reflexivity|].
  split; [reflexivity|].
  split; [reflexivity|].
  split; [vm_compute; repeat (first [left; reflexivity | right])|].
  split; [vm_compute; repeat (first [left; reflexivity | right])|].
  intros ctx idx. rewrite eval_activation. apply tanh_range.
Qed.

(** ** Age-cGAN encoder *)

(** C10.  [encoder] calls four convolutions, each on the input
    placeholder itself.  Its output is computed from the 256-filter one
    alone: the chain from the output back to the input is the one of
    [encoder_256_only], and the two networks compute the same function
    when the layers of the smaller one hold the weights of the
    corresponding layers of the encoder (ids 8 to 15 against 0 to 7), in
    both directions. *)
Theorem encoder_uses_last_convolution_only :
  exists e se out small ss out',
    run FaceApp.encoder = inr (e, se)
    /\ outputs e = [out]
    /\ run FaceApp.encoder_256_only = inr (small, ss)
    /\ outputs small = [out']
    /\ inputs e = [KInput "input_layer" (nhwc 64 64 3)]
    /\ inputs small = inputs e
    /\ filter (fun c => is_conv2d (fst c)) (calls_with_args se) =
         [(Conv2D 32 5 5 2 Same true, [KInput "input_layer" (nhwc 64 64 3)]);
          (Conv2D 64 5 5 2 Same true, [KInput "input_layer" (nhwc 64 64 3)]);
          (Conv2D 128 5 5 2 Same true, [KInput "input_layer" (nhwc 64 64 3)]);
          (Conv2D 256 5 5 2 Same true, [KInput "input_layer" (nhwc 64 64 3)])]
    /\ spine out =
         [(Dense 100 true, vec 100);
          (LeakyReLU (2 # 10), vec 4096);
          (BatchNormalization, vec 4096);
          (Dense 4096 true, vec 4096);
          (Flatten, vec 262144);
          (LeakyReLU (2 # 10), nhwc 32 32 256);
          (BatchNormalization, nhwc 32 32 256);
          (Conv2D 256 5 5 2 Same true, nhwc 32 32 256)]
    /\ spine out' = spine out
    /\ model_layers e = [15; 14; 13; 12; 11; 10; 9; 8]%nat
    /\ model_layers small = [7; 6; 5; 4; 3; 2; 1; 0]%nat
    /\ (forall ctx : world,
          eval ctx out = eval (shift_layers 8 ctx) out')
    /\ (forall ctx : world,
          eval ctx out' = eval (unshift_layers 8 ctx) out).
Proof.
  do 6 eexists.
  split; [vm_compute; reflexivity|].
  split; [reflexivity|].
  split; [vm_compute; reflexivity|].
  split; [reflexivity|].
  split; [reflexivity|].
  split; [reflexivity|].
  split; [vm_compute; reflexivity|].
  split; [vm_compute; reflexivity|].
  split; [vm_compute; reflexivity|].
  split; [vm_compute; reflexivity|].
  split; [vm_compute; reflexivity|].
  split; intros ctx; reflexivity.
Qed.

(** ** Adversarial composites and the [trainable] attribute *)

Lemma existsb_eqb_In (x : nat) (xs : list nat) :
  existsb (Nat.eqb x) xs = true <-> In x xs.
Proof.
  rewrite existsb_exists. split.
  - intros (y & Hy & Hxy). apply Nat.eqb_eq in Hxy. subst. exact Hy.
  - intros Hx. exists x. split; [exact Hx | apply Nat.eqb_refl].
Qed.

Lemma frozen_not_trainable (s : kstate) (obj : nat) :
  In obj (frozen s) -> is_trainable s obj = false.
Proof.
  intros H. unfold is_trainable.
  apply (proj2 (existsb_eqb_In obj (frozen s))) in H. rewrite H. reflexivity.
Qed.

Lemma removed_is_trainable (s : kstate) (objs ys : list nat) (obj : nat) :
  In obj objs -> frozen s = remove_all objs ys -> is_trainable s obj = true.
Proof.
  intros Hin Hs. unfold is_trainable. rewrite Hs.
  destruct (existsb (Nat.eqb obj) (remove_all objs ys)) eqn:E; [|reflexivity].
  apply existsb_eqb_In in E. unfold remove_all in E.
  apply filter_In in E. destruct E as [_ E].
  apply (proj2 (existsb_eqb_In obj objs)) in Hin. rewrite Hin in E.
  discriminate.
Qed.

(** A step never updates a weight outside the collected set. *)
Lemma train_step_frame {W : Type} (collected : list nat)
    (update : nat -> W -> W) (theta : nat -> W) (uid : nat) :
  ~ In uid collected -> train_step collected update theta uid = theta uid.
Proof.
  intros H. unfold train_step.
  destruct (existsb (Nat.eqb uid) collected) eqn:E; [|reflexivity].
  apply existsb_eqb_In in E. contradiction.
Qed.

Lemma trainable_weights_trainable (s : kstate) (m : Model) (uid : nat) :
  In uid (trainable_weights s m) -> is_trainable s uid = true.
Proof.
  unfold trainable_weights.
  destruct (is_trainable s (mid m)); [|intros []].
  intros H. apply filter_In in H. apply H.
Qed.

(** What [build_adversarial] does to the state: one object allocated,
    the discriminator and its layers added to the frozen set. *)
Lemma build_adversarial_state (g d adv : Model) (s s' : kstate) :
  StackGAN.build_adversarial g d s = inr (adv, s') ->
  frozen s' = (mid d :: model_layers d) ++ frozen s
  /\ next_uid s' = S (next_uid s)
  /\ trace s' = trace s.
Proof.
  unfold StackGAN.build_adversarial, bind, Input, ret, call_model.
  destruct (shapes_agree (inputs g) _); [|discriminate].
  unfold ret. 
  destruct (map _ (outputs g)) as [|x [|ca [|? ?]]]; try discriminate.
  unfold bind, set_trainable.
  destruct (shapes_agree (inputs d) _); [|discriminate].
  unfold ret, new_model. cbn.
  intros H. injection H as <- <-. cbn. auto.
Qed.

(** What [adversarial] does to the state: one object allocated, the
    discriminator and its layers removed from the frozen set. *)
Lemma adversarial_state (g d adv : Model) (s s' : kstate) :
  FaceApp.adversarial g d s = inr (adv, s') ->
  frozen s' = remove_all (mid d :: model_layers d)
                ((mid d :: model_layers d) ++ frozen s)
  /\ next_uid s' = S (next_uid s)
  /\ trace s' = trace s.
Proof.
  unfold FaceApp.adversarial, bind, Input, ret, set_trainable, call_model.
  destruct (shapes_agree (inputs g) _); [|discriminate].
  unfold ret.
  destruct (map _ (outputs g)) as [|x [|? ?]]; try discriminate.
  unfold bind.
  destruct (shapes_agree (inputs d) _); [|discriminate].
  unfold ret.
  destruct (map _ (outputs d)) as [|v [|? ?]]; try discriminate.
  unfold bind, new_model. cbn.
  intros H. injection H as <- <-. cbn. auto.
Qed.

(** A layer that owns weights is a layer. *)
Lemma weighted_layers_are_layers (t : ktensor) (uid : nat) :
  In uid (weighted_layers_of t) -> In uid (layers_of t).
Proof.
  induction t as [name sh | u l sh args IH | o sh args IH]
    using ktensor_induction; cbn [weighted_layers_of layers_of].
  - intros [].
  - intros H. apply in_app_or in H. destruct H as [H | H].
    + destruct (has_weights l); [|destruct H].
      destruct H as [<- | []]. left. reflexivity.
    + right. apply in_flat_map in H. destruct H as (a & Ha & Hu).
      apply in_flat_map. exists a. split; [exact Ha|].
      rewrite Forall_forall in IH. apply IH; assumption.
  - intros H. apply in_flat_map in H. destruct H as (a & Ha & Hu).
    apply in_flat_map. exists a. split; [exact Ha|].
    rewrite Forall_forall in IH. apply IH; assumption.
Qed.

Lemma weighted_in_layers (m : Model) (uid : nat) :
  In uid (model_weights m) -> In uid (model_layers m).
Proof.
  unfold model_weights, model_layers. intros H.
  apply in_flat_map in H. destruct H as (t & Ht & Hu).
  apply in_flat_map. exists t. split; [exact Ht|].
  apply weighted_layers_are_layers. exact Hu.
Qed.

(** Substituting placeholders keeps every layer of a graph. *)
Lemma weighted_layers_subst (b : list (string * ktensor)) (t : ktensor)
    (uid : nat) :
  In uid (weighted_layers_of t) -> In uid (weighted_layers_of (subst b t)).
Proof.
  induction t as [name sh | u l sh args IH | o sh args IH]
    using ktensor_induction; cbn [weighted_layers_of subst].
  - intros [].
  - intros H. apply in_app_or in H. apply in_or_app.
    destruct H as [H | H]; [left; exact H | right].
    apply in_flat_map in H. destruct H as (a & Ha & Hu).
    apply in_flat_map. exists (subst b a). split.
    + apply in_map. exact Ha.
    + rewrite Forall_forall in IH. apply IH; assumption.
  - intros H.
    apply in_flat_map in H. destruct H as (a & Ha & Hu).
    apply in_flat_map. exists (subst b a). split.
    + apply in_map. exact Ha.
    + rewrite Forall_forall in IH. apply IH; assumption.
Qed.

(** The composite [adversarial] returns is computed with every weighted
    layer of the discriminator. *)
Lemma adversarial_contains_discriminator (g d adv : Model) (s s' : kstate) :
  FaceApp.adversarial g d s = inr (adv, s') ->
  mid adv = next_uid s
  /\ forall uid, In uid (model_weights d) -> In uid (model_weights adv).
Proof.
  unfold FaceApp.adversarial, bind, Input, ret, set_trainable, call_model.
  destruct (shapes_agree (inputs g) _); [|discriminate].
  unfold ret.
  destruct (map _ (outputs g)) as [|x [|? ?]]; try discriminate.
  unfold bind.
  destruct (shapes_agree (inputs d) _); [|discriminate].
  unfold ret, model_weights.
  destruct (outputs d) as [|v [|? ?]]; try discriminate.
  unfold bind, new_model. cbn.
  intros H. injection H as <- <-. cbn. split; [reflexivity|].
  intros uid Hu. rewrite app_nil_r in *.
  apply weighted_layers_subst. exact Hu.
Qed.

(** The composite as [main] compiles it (lines 233-234): when [compile]
    collects the weights the discriminator is trainable again, so every
    weighted layer of the discriminator is collected.  (The second
    hypothesis says that the id the composite receives is fresh.) *)
Lemma main_adversarial_collects (g d adv : Model) (collected : list nat)
    (s s' : kstate) :
  FaceApp.main_adversarial g d s = inr ((adv, collected), s') ->
  ~ In (next_uid s) (frozen s) ->
  is_trainable s' (mid d) = true
  /\ collected = trainable_weights s' adv
  /\ forall uid, In uid (model_weights d) -> In uid collected.
Proof.
  unfold FaceApp.main_adversarial, bind.
  destruct (FaceApp.adversarial g d s) as [e | [adv1 s1]] eqn:H;
    [discriminate|].
  unfold compile, ret. intros E Hfresh.
  injection E as <- <- <-.
  destruct (adversarial_state _ _ _ H) as (Hf & _ & _).
  destruct (adversarial_contains_discriminator _ _ _ H) as (Hmid & Hsub).
  split; [|split; [reflexivity|]].
  - eapply removed_is_trainable; [|exact Hf]. left. reflexivity.
  - intros uid Hu. unfold trainable_weights.
    assert (Hadv : is_trainable s1 (mid adv1) = true).
    { unfold is_trainable. rewrite Hf, Hmid.
      destruct (existsb _ _) eqn:E; [|reflexivity].
      apply existsb_eqb_In in E. unfold remove_all in E.
      apply filter_In in E. destruct E as [E1 E2].
      apply in_app_or in E1. destruct E1 as [E1 | E1]; [|contradiction].
      apply (proj2 (existsb_eqb_In _ _)) in E1. rewrite E1 in E2.
      discriminate. }
    rewrite Hadv. apply filter_In. split.
    + apply nodup_In. apply Hsub. exact Hu.
    + eapply removed_is_trainable; [|exact Hf]. right.
      apply weighted_in_layers. exact Hu.
Qed.

(** A step updates every collected weight. *)
Lemma train_step_collected {W : Type} (collected : list nat)
    (update : nat -> W -> W) (theta : nat -> W) (uid : nat) :
  In uid collected ->
  train_step collected update theta uid = update uid (theta uid).
Proof.
  intros H. unfold train_step.
  apply (proj2 (existsb_eqb_In _ _)) in H. rewrite H. reflexivity.
Qed.

(** C4.  The two builders against the frozen-weights contract.

    [build_adversarial] of StackGAN keeps it: the builder clears the
    [trainable] attribute of the discriminator and of its layers and
    leaves it cleared, so that a composite compiled after the build
    collects no layer of the discriminator and a training step through it
    leaves the discriminator's weights as they were.

    [adversarial] of Age-cGAN does not.  On the models the script itself
    builds, [generator()] and [discriminator()], the call made by [main]
    raises, whatever was built before: no composite exists.  On every
    pair of models the builder accepts, line 200 has set the attribute
    again before the composite is constructed (line 201) and compiled
    (line 234): the discriminator is trainable, every weighted layer of
    the discriminator is among the weights [compile] collects, and a
    training step through the composite applies the optimizer's update to
    each of them.  (The hypothesis on the start state says that the id
    the composite receives is fresh.) *)
Theorem adversarial_builders_trainable :
  (forall (g d adv : Model) (s s' : kstate),
      StackGAN.build_adversarial g d s = inr (adv, s') ->
      is_trainable s' (mid d) = false
      /\ (forall uid, In uid (model_layers d) ->
                      is_trainable s' uid = false)
      /\ (forall uid, In uid (model_layers d) ->
                      ~ In uid (trainable_weights s' adv)))
  /\ (forall (W : Type) (g d : Model) (update : nat -> W -> W)
             (theta theta' : nat -> W) (s s' : kstate),
        StackGAN.adversarial_step g d update theta s = inr (theta', s') ->
        forall uid, In uid (model_layers d) -> theta' uid = theta uid)
  /\ (forall s : kstate,
        bind FaceApp.generator (fun g =>
        bind FaceApp.discriminator (fun d =>
        FaceApp.main_adversarial g d)) s = inl DimMismatch)
  /\ (forall (W : Type) (g d adv : Model) (collected : list nat)
             (s s' : kstate) (update : nat -> W -> W) (theta : nat -> W),
        FaceApp.main_adversarial g d s = inr ((adv, collected), s') ->
        ~ In (next_uid s) (frozen s) ->
        is_trainable s' (mid d) = true
        /\ (forall uid, In uid (model_layers d) ->
                        is_trainable s' uid = true)
        /\ (forall uid, In uid (model_weights d) ->
              In uid collected
              /\ train_step collected update theta uid
                 = update uid (theta uid))).
Proof.
  assert (A : forall (g d adv : Model) (s s' : kstate),
             StackGAN.build_adversarial g d s = inr (adv, s') ->
             is_trainable s' (mid d) = false
             /\ (forall uid, In uid (model_layers d) ->
                             is_trainable s' uid = false)
             /\ (forall uid, In uid (model_layers d) ->
                             ~ In uid (trainable_weights s' adv))).
  { intros g d adv s s' H.
    destruct (build_adversarial_state _ _ _ H) as (Hf & _ & _).
    assert (Hl : forall uid, In uid (model_layers d) ->
                             is_trainable s' uid = false).
    { intros uid Hu. apply frozen_not_trainable. rewrite Hf.
      apply in_or_app. left. right. exact Hu. }
    split; [|split].
    - apply frozen_not_trainable. rewrite Hf. left. reflexivity.
    - exact Hl.
    - intros uid Hu Hc. apply trainable_weights_trainable in Hc.
      rewrite (Hl uid Hu) in Hc. discriminate. }
  split; [exact A|]. split; [|split].
  - intros W g d update theta theta' s s'.
    unfold StackGAN.adversarial_step, bind.
    destruct (StackGAN.build_adversarial g d s) as [e | [adv s1]] eqn:H;
      [discriminate|].
    unfold compile, ret. intros E. injection E as <- <-.
    intros uid Hu. apply train_step_frame.
    apply (A _ _ _ _ _ H). exact Hu.
  - intros s. vm_compute. reflexivity.
  - intros W g d adv collected s s' update theta H Hfresh.
    destruct (@main_adversarial_collects _ _ _ _ _ _ H Hfresh)
      as (Hd & _ & Hc).
    split; [exact Hd|]. split.
    + intros uid Hu. revert H. unfold FaceApp.main_adversarial, bind.
      destruct (FaceApp.adversarial g d s) as [e | [adv1 s1]] eqn:H1;
        [discriminate|].
      unfold compile, ret. intros E. injection E as <- <- <-.
      destruct (adversarial_state _ _ _ H1) as (Hf & _ & _).
      eapply removed_is_trainable; [|exact Hf]. right. exact Hu.
    + intros uid Hu. split; [apply Hc; exact Hu|].
      apply train_step_collected. apply Hc. exact Hu.
Qed.

(** The theorem at work.  On the Stage-1 generator and discriminator of
    StackGAN the composite is built and the discriminator's last layer is
    not collected.  For Age-cGAN, on a generator and a discriminator with
    the signatures [main] expects (a 100-wide latent vector and a 6-wide
    label to a 64x64x3 image; the image and the label to a probability)
    the composite is built, the affine layer of the discriminator (layer
    6) is collected, and a step that adds one to every weight turns its
    weight 0 into 1. *)
Lemma adversarial_builders_trainable_witness :
  (exists g d s1 adv s2,
      run (bind StackGAN.build_stage1_generator (fun g =>
           bind StackGAN.build_stage1_discriminator (fun d =>
           ret (g, d)))) = inr ((g, d), s1)
      /\ StackGAN.build_adversarial g d s1 = inr (adv, s2)
      /\ is_trainable s2 (mid d) = false
      /\ ~ In 42%nat (trainable_weights s2 adv))
  /\ (exists g d adv collected s s',
        run (bind
               (bind (Input "latent_vector" [100%Z]) (fun z =>
                bind (Input "conditioning_variable" [6%Z]) (fun y =>
                bind (call (Concatenate (-1)) [z; y]) (fun x =>
                bind (call (Dense 12288 true) [x]) (fun x =>
                bind (call (Reshape [64; 64; 3]%Z) [x]) (fun x =>
                new_model [z; y] [x]))))))
               (fun g =>
             bind
               (bind (Input "image" [64; 64; 3]%Z) (fun image =>
                bind (Input "label" [6%Z]) (fun label =>
                bind (call Flatten [image]) (fun x =>
                bind (call (Concatenate (-1)) [x; label]) (fun x =>
                bind (call (Dense 1 true) [x]) (fun x =>
                bind (call (Activation Sigmoid) [x]) (fun x =>
                new_model [image; label] [x])))))))
               (fun d => ret (g, d))))
        = inr ((g, d), s)
        /\ FaceApp.main_adversarial g d s = inr ((adv, collected), s')
        /\ model_weights d = [6%nat]
        /\ is_trainable s' (mid d) = true
        /\ In 6%nat collected
        /\ train_step collected (fun _ v => (v + 1)%Z) (fun _ => 0%Z) 6%nat
           = 1%Z).
Proof.
  split.
  - do 5 eexists.
    split; [vm_compute; reflexivity|].
    match goal with
    | |- ?L = ?R /\ _ =>
        assert (Hb : L = R) by (vm_compute; reflexivity)
    end.
    split; [exact Hb|].
    destruct (proj1 adversarial_builders_trainable _ _ _ _ _ Hb)
      as (Hd & _ & Hw).
    split; [exact Hd|].
    apply Hw. vm_compute. repeat (first [left; reflexivity | right]).
  - do 6 eexists.
    split; [vm_compute; reflexivity|].
    match goal with
    | |- ?L = ?R /\ _ =>
        assert (Hb : L = R) by (vm_compute; reflexivity)
    end.
    split; [exact Hb|].
    split; [vm_compute; reflexivity|].
    assert (Hfresh : ~ In 9%nat (@nil nat)) by (intros []).
    destruct (proj2 (proj2 (proj2 adversarial_builders_trainable))
                Z _ _ _ _ _ _ (fun _ v => (v + 1)%Z) (fun _ => 0%Z)
                Hb Hfresh) as (Hd & _ & Hc).
    split; [exact Hd|].
    destruct (Hc 6%nat (or_introl eq_refl)) as (Hin & Hstep).
    split; [exact Hin | exact Hstep].
Defined.

(** [build_adversarial] does not set the attribute back: after the call
    on the Stage-1 generator and discriminator, the discriminator,
    trainable before, is not trainable, and restoring it is left to the
    caller. *)
Lemma stackgan_discriminator_left_frozen :
  exists g d s1 adv s2,
    run (bind StackGAN.build_stage1_generator (fun g =>
         bind StackGAN.build_stage1_discriminator (fun d =>
         ret (g, d)))) = inr ((g, d), s1)
    /\ StackGAN.build_adversarial g d s1 = inr (adv, s2)
    /\ is_trainable s1 (mid d) = true
    /\ is_trainable s2 (mid d) = false
    /\ trainable_weights s2 d = [].
Proof.
  do 5 eexists.
  split; [vm_compute; reflexivity|].
  split; [vm_compute; reflexivity|].
  split; [vm_compute; reflexivity|].
  split; vm_compute; reflexivity.
Qed.

(** ** Age computation *)

Section Age.

Local Open Scope Z_scope.

Ltac eval_tables :=
  repeat match goal with
    | |- context [Datetime.table ?t ?i] =>
        let v := eval vm_compute in (Datetime.table t i) in
        change (Datetime.table t i) with v
    end.

(** Every ordinal [datetime] accepts falls in a month from 1 to 12 of a
    year from 1 to 9999. *)
Lemma ord2ymd_range (n : Z) :
  1 <= n <= Datetime.MAXORDINAL ->
  1 <= Datetime.month (Datetime.ord2ymd n) <= 12
  /\ 1 <= Datetime.year (Datetime.ord2ymd n) <= 9999.
Proof.
  intros Hn. unfold Datetime.MAXORDINAL in Hn.
  unfold Datetime.ord2ymd, Datetime.DI400Y, Datetime.DI100Y, Datetime.DI4Y.
  set (n0 := n - 1).
  set (n400 := n0 / 146097). set (r1 := n0 mod 146097).
  set (n100 := r1 / 36524). set (r2 := r1 mod 36524).
  set (n4 := r2 / 1461). set (r3 := r2 mod 1461).
  set (n1 := r3 / 365). set (r4 := r3 mod 365).
  assert (H400 : 0 <= n400 <= 24 /\ 0 <= r1 < 146097
                 /\ n0 = 146097 * n400 + r1).
  { subst n400 r1 n0.
    pose proof (Z.div_mod (n - 1) 146097 ltac:(lia)).
    pose proof (Z.mod_pos_bound (n - 1) 146097 ltac:(lia)). lia. }
  assert (H100 : 0 <= n100 <= 4 /\ 0 <= r2 < 36524
                 /\ r1 = 36524 * n100 + r2).
  { subst n100 r2.
    pose proof (Z.div_mod r1 36524 ltac:(lia)).
    pose proof (Z.mod_pos_bound r1 36524 ltac:(lia)). lia. }
  assert (H4 : 0 <= n4 <= 24 /\ 0 <= r3 < 1461 /\ r2 = 1461 * n4 + r3).
  { subst n4 r3.
    pose proof (Z.div_mod r2 1461 ltac:(lia)).
    pose proof (Z.mod_pos_bound r2 1461 ltac:(lia)). lia. }
  assert (H1 : 0 <= n1 <= 4 /\ 0 <= r4 < 365 /\ r3 = 365 * n1 + r4).
  { subst n1 r4.
    pose proof (Z.div_mod r3 365 ltac:(lia)).
    pose proof (Z.mod_pos_bound r3 365 ltac:(lia)). lia. }
  assert (Hn0 : 0 <= n0 <= 3652058) by (subst n0; lia).
  clearbody n0 n400 r1 n100 r2 n4 r3 n1 r4. clear Hn.
  destruct ((n1 =? 4) || (n100 =? 4)) eqn:Hend.
  - cbn. apply orb_true_iff in Hend.
    rewrite !Z.eqb_eq in Hend. lia.
  - apply orb_false_iff in Hend. rewrite !Z.eqb_neq in Hend.
    assert (Hyear : 1 <= n400 * 400 + 1 + n100 * 100 + n4 * 4 + n1 <= 9999).
    { assert (n400 <= 23 \/ n400 = 24) as [?|?] by lia; [lia|].
      assert (n100 <= 2 \/ n100 = 3) as [?|?] by lia; [lia|].
      assert (n4 <= 23 \/ n4 = 24) as [?|?] by lia; lia. }
    rewrite Z.shiftr_div_pow2 by lia. change (2 ^ 5) with 32.
    set (m := (r4 + 50) / 32).
    assert (Hm : 1 <= m <= 12 /\ 32 * m <= r4 + 50 < 32 * m + 32).
    { subst m. pose proof (Z.div_mod (r4 + 50) 32 ltac:(lia)).
      pose proof (Z.mod_pos_bound (r4 + 50) 32 ltac:(lia)). lia. }
    clearbody m.
    assert (Hcases : m = 1 \/ m = 2 \/ m = 3 \/ m = 4 \/ m = 5 \/ m = 6
                     \/ m = 7 \/ m = 8 \/ m = 9 \/ m = 10 \/ m = 11
                     \/ m = 12) by lia.
    destruct ((n1 =? 3) && (negb (n4 =? 24) || (n100 =? 3)));
      repeat (destruct Hcases as [-> | Hcases]); try subst m;
      cbn [Z.sub Z.add Z.opp Z.pos_sub Pos.pred_double Z.succ_double
           Z.pred_double Z.double Pos.succ Pos.add];
      eval_tables; cbn;
      match goal with
      | |- context [if ?a <? ?b then _ else _] => destruct (Z.ltb_spec a b)
      end; cbn; lia.
Qed.

(** C9, as the code has it.  For every photo year and every date of birth
    whose serial number, truncated and shifted by 366 days, is no later than
    the last day [datetime] represents, [compute_age] returns the photo year
    minus the birth year, less one exactly when the birth month is 7 or
    more; the birth date is the date of the shifted ordinal, or of ordinal
    1 when the shifted value is smaller, and its month is from 1 to 12. *)
Theorem compute_age_rule (photo_date : Z) (dob : Q) :
  FaceApp.py_int dob - 366 <= Datetime.MAXORDINAL ->
  exists birth,
    Datetime.fromordinal (Z.max (FaceApp.py_int dob - 366) 1) = Some birth
    /\ 1 <= Datetime.month birth <= 12
    /\ FaceApp.compute_age photo_date dob
       = Some (photo_date - Datetime.year birth
               - (if 7 <=? Datetime.month birth then 1 else 0)).
Proof.
  intros Hmax.
  set (n := Z.max (FaceApp.py_int dob - 366) 1).
  assert (Hn : 1 <= n <= Datetime.MAXORDINAL)
    by (subst n; unfold Datetime.MAXORDINAL in *; lia).
  exists (Datetime.ord2ymd n).
  assert (Hfrom : Datetime.fromordinal n = Some (Datetime.ord2ymd n)).
  { unfold Datetime.fromordinal.
    destruct (Z.leb_spec 1 n); [|lia].
    destruct (Z.leb_spec n Datetime.MAXORDINAL); [|lia]. reflexivity. }
  split; [exact Hfrom|].
  split; [apply ord2ymd_range; exact Hn|].
  unfold FaceApp.compute_age. fold n. rewrite Hfrom.
  destruct (Z.ltb_spec (Datetime.month (Datetime.ord2ymd n)) 7);
    destruct (Z.leb_spec 7 (Datetime.month (Datetime.ord2ymd n)));
    try lia; f_equal; lia.
Qed.

Lemma compute_age_rule_witness :
  exists birth,
    Datetime.fromordinal (Z.max (FaceApp.py_int (730486 # 1) - 366) 1)
    = Some birth
    /\ 1 <= Datetime.month birth <= 12
    /\ FaceApp.compute_age 2019 (730486 # 1)
       = Some (2019 - Datetime.year birth
               - (if 7 <=? Datetime.month birth then 1 else 0)).
Proof.
  apply (compute_age_rule 2019 (730486 # 1)).
  vm_compute. discriminate.
Defined.

(** C9, where the claim fails.  A serial number past the last day of year
    9999 (shifted ordinal 3652060) makes [fromordinal] raise: nothing is
    returned. *)
Lemma compute_age_out_of_range :
  FaceApp.compute_age 2019 (3652426 # 1) = None.
Proof. vm_compute. reflexivity. Qed.

(** Serial numbers up to 367 are read as 1 January of year 1. *)
Lemma compute_age_clamped (photo_date : Z) (dob : Q) :
  FaceApp.py_int dob <= 367 ->
  FaceApp.compute_age photo_date dob = Some (photo_date - 1).
Proof.
  intros H. unfold FaceApp.compute_age.
  replace (Z.max (FaceApp.py_int dob - 366) 1) with 1 by lia.
  reflexivity.
Qed.

Lemma compute_age_clamped_witness :
  FaceApp.compute_age 2019 (1 # 2) = Some 2018.
Proof.
  apply (compute_age_clamped 2019 (1 # 2)). vm_compute. discriminate.
Defined.

End Age.

(* ================================================================== *)
(** * Further properties of the two scripts *)
(* ================================================================== *)

(** ** The metadata loader *)

Section Loader.

Import FaceApp.

Lemma comprehension_inr {A B : Type} (f : A -> pyexn + B) (l : list A)
    (r : list B) :
  comprehension f l = inr r -> Forall2 (fun a b => f a = inr b) l r.
Proof.
  revert r. induction l as [|a l IH]; cbn; intros r H.
  - injection H as <-. constructor.
  - destruct (f a) as [e | b] eqn:Ha; [discriminate|].
    destruct (comprehension f l) as [e | bs]; [discriminate|].
    injection H as <-. constructor; [exact Ha | apply IH; reflexivity].
Qed.

Lemma comprehension_raises {A B : Type} (f : A -> pyexn + B) (l : list A)
    (a : A) (e : pyexn) :
  In a l -> f a = inl e -> exists e', comprehension f l = inl e'.
Proof.
  induction l as [|a0 l IH]; cbn; intros Hin Ha; [contradiction|].
  destruct (f a0) as [e0 | b] eqn:H0; [eexists; reflexivity|].
  destruct Hin as [-> | Hin]; [congruence|].
  destruct (IH Hin Ha) as (e' & ->). eexists; reflexivity.
Qed.

Lemma Forall2_nth_error {A B : Type} (R : A -> B -> Prop) (l : list A)
    (r : list B) (i : nat) (a : A) :
  Forall2 R l r -> nth_error l i = Some a ->
  exists b, nth_error r i = Some b /\ R a b.
Proof.
  intros H. revert i. induction H as [|x y l r Hxy H IH]; intros i Hi.
  - destruct i; discriminate.
  - destruct i as [|i]; cbn in *.
    + injection Hi as <-. eauto.
    + apply IH. exact Hi.
Qed.

(** The loop appends one path and one age per entry of [paths], reading
    the ages from position [i] on. *)
Lemma load_loop_inr (calculated_age : list Z) (paths : list (list string))
    (i : nat) (images images' : list string) (ages ages' : list Z) :
  load_loop calculated_age paths i images ages = inr (images', ages') ->
  exists ps ags,
    images' = images ++ ps /\ ages' = ages ++ ags
    /\ Forall2 (fun path p => nth_error path 0 = Some p) paths ps
    /\ length ags = length paths
    /\ forall k, (k < length paths)%nat ->
         nth_error ags k = nth_error calculated_age (i + k)
         /\ nth_error ags k <> None.
Proof.
  revert i images ages. induction paths as [|path paths IH];
    cbn; intros i images ages H.
  - injection H as <- <-. exists [], []. rewrite !app_nil_r.
    split; [reflexivity|]. split; [reflexivity|].
    split; [constructor|]. split; [reflexivity|].
    intros k Hk. inversion Hk.
  - unfold getitem in H.
    destruct (nth_error path 0) as [p|] eqn:Hp; [|discriminate].
    destruct (nth_error calculated_age i) as [a|] eqn:Ha; [|discriminate].
    apply IH in H. destruct H as (ps & ags & -> & -> & HF & Hlen & Hk).
    exists (p :: ps), (a :: ags). rewrite <- !app_assoc. cbn.
    split; [reflexivity|]. split; [reflexivity|].
    split; [constructor; assumption|]. split; [lia|].
    intros [|k] Hlt; cbn.
    + rewrite Nat.add_0_r, Ha. split; [reflexivity | discriminate].
    + replace (i + S k)%nat with (S i + k)%nat by lia. apply Hk. lia.
Qed.

(** [load_data] returns two parallel lists with one entry per path: the
    first string of each path array and, at the same position, the age
    [compute_age] gives for the photo year and the date of birth of that
    position. *)
Theorem load_data_parallel (metadata : wiki) (images : list string)
    (ages_list : list Z) :
  load_data metadata = inr (images, ages_list) ->
  length images = length (full_path metadata)
  /\ length ages_list = length (full_path metadata)
  /\ forall i path,
       nth_error (full_path metadata) i = Some path ->
       exists img p d a,
         nth_error path 0 = Some img
         /\ nth_error images i = Some img
         /\ nth_error (photo_taken metadata) i = Some p
         /\ nth_error (dob metadata) i = Some d
         /\ compute_age p d = Some a
         /\ nth_error ages_list i = Some a.
Proof.
  unfold load_data. intros H.
  destruct (comprehension _ _) as [e | calculated_age] eqn:Hc;
    [discriminate|].
  apply comprehension_inr in Hc.
  apply load_loop_inr in H.
  destruct H as (ps & ags & -> & -> & HF & Hlen & Hk). cbn.
  split; [symmetry; eapply Forall2_length; exact HF|].
  split; [exact Hlen|].
  intros i path Hi.
  destruct (@Forall2_nth_error _ _ _ _ _ _ _ HF Hi) as (img & Himg & Hpath).
  assert (Hlt : (i < length (full_path metadata))%nat)
    by (apply nth_error_Some; congruence).
  destruct (Hk i Hlt) as (Hag & Hsome). cbn in Hag.
  destruct (nth_error ags i) as [a|] eqn:Ha; [|congruence].
  symmetry in Hag.
  assert (Hseq : nth_error (seq 0 (length (dob metadata))) i = Some i).
  { assert (i < length (dob metadata))%nat.
    { apply Forall2_length in Hc. rewrite length_seq in Hc.
      rewrite Hc. apply nth_error_Some. congruence. }
    rewrite nth_error_seq.
    destruct (Nat.ltb_spec i (length (dob metadata))); [reflexivity | lia]. }
  destruct (@Forall2_nth_error _ _ _ _ _ _ _ Hc Hseq) as (a' & Ha' & Hf).
  assert (a' = a) by congruence. subst a'.
  unfold getitem in Hf.
  destruct (nth_error (photo_taken metadata) i) as [p|]; [|discriminate].
  destruct (nth_error (dob metadata) i) as [d|]; [|discriminate].
  destruct (compute_age p d) as [a0|] eqn:Hage; [|discriminate].
  injection Hf as ->.
  exists img, p, d, a. repeat split; try assumption; reflexivity.
Qed.

(** [load_data] returns only when the table has at least as many dates
    of birth as paths and at least as many photo years as dates of birth;
    otherwise an index runs off an array and it raises. *)
Theorem load_data_needs_aligned_columns (metadata : wiki)
    (r : list string * list Z) :
  load_data metadata = inr r ->
  (length (full_path metadata) <= length (dob metadata))%nat
  /\ (length (dob metadata) <= length (photo_taken metadata))%nat.
Proof.
  unfold load_data. intros H.
  destruct (comprehension _ _) as [e | calculated_age] eqn:Hc;
    [discriminate|].
  apply comprehension_inr in Hc. destruct r as [images ages].
  apply load_loop_inr in H.
  destruct H as (ps & ags & _ & _ & _ & _ & Hk).
  pose proof (Forall2_length Hc) as Hlen. rewrite length_seq in Hlen.
  split.
  - destruct (Nat.le_gt_cases (length (full_path metadata))
                (length (dob metadata))) as [Hle | Hgt]; [exact Hle|].
    exfalso. destruct (Hk (length (dob metadata)) Hgt) as (Heq & Hne).
    apply Hne. rewrite Heq. apply nth_error_None. cbn. lia.
  - destruct (length (dob metadata)) as [|n] eqn:Hn; [lia|].
    assert (Hseq : nth_error (seq 0 (S n)) n = Some n).
    { rewrite nth_error_seq.
      destruct (Nat.ltb_spec n (S n)); [reflexivity | lia]. }
    destruct (@Forall2_nth_error _ _ _ _ _ _ _ Hc Hseq) as (a & _ & Hf).
    unfold getitem in Hf.
    destruct (nth_error (photo_taken metadata) n) eqn:Hp; [|discriminate].
    assert (n < length (photo_taken metadata))%nat
      by (apply nth_error_Some; congruence).
    lia.
Qed.

Lemma load_data_needs_aligned_columns_witness :
  (length [["a.jpg"%string]] <= length [730486 # 1])%nat
  /\ (length [730486 # 1] <= length [2019%Z])%nat.
Proof.
  apply (@load_data_needs_aligned_columns
           {| full_path := [["a.jpg"%string]]; dob := [730486 # 1];
              photo_taken := [2019%Z] |}
           (["a.jpg"%string], [19%Z])).
  vm_compute. reflexivity.
Defined.

(** One date of birth beyond the last day [datetime] represents makes
    [load_data] raise, wherever it stands in the table: also at a
    position no path uses. *)
Theorem load_data_raises_on_late_dob (metadata : wiki) (i : nat) (d : Q) :
  nth_error (dob metadata) i = Some d ->
  (Datetime.MAXORDINAL < py_int d - 366)%Z ->
  exists e, load_data metadata = inl e.
Proof.
  intros Hd Hlate. unfold load_data.
  destruct (comprehension _ _) as [e | calculated_age] eqn:Hc;
    [eexists; reflexivity|].
  exfalso. apply comprehension_inr in Hc.
  assert (Hlt : (i < length (dob metadata))%nat)
    by (apply nth_error_Some; congruence).
  assert (Hseq : nth_error (seq 0 (length (dob metadata))) i = Some i).
  { rewrite nth_error_seq.
    destruct (Nat.ltb_spec i (length (dob metadata))); [reflexivity | lia]. }
  destruct (@Forall2_nth_error _ _ _ _ _ _ _ Hc Hseq) as (a & _ & Hf).
  unfold getitem in Hf. rewrite Hd in Hf.
  destruct (nth_error (photo_taken metadata) i) as [p|]; [|discriminate].
  unfold compute_age, Datetime.fromordinal in Hf.
  replace (Z.max (py_int d - 366) 1 <=? Datetime.MAXORDINAL)%Z with false
    in Hf.
  - rewrite andb_false_r in Hf. discriminate.
  - symmetry. apply Z.leb_gt. unfold Datetime.MAXORDINAL in *. lia.
Qed.

Lemma load_data_raises_on_late_dob_witness :
  exists e,
    load_data {| full_path := [["a.jpg"%string]];
                 dob := [730486 # 1; 3652426 # 1];
                 photo_taken := [2019%Z; 2019%Z] |} = inl e.
Proof.
  apply (@load_data_raises_on_late_dob
           {| full_path := [["a.jpg"%string]];
              dob := [730486 # 1; 3652426 # 1];
              photo_taken := [2019%Z; 2019%Z] |} 1 (3652426 # 1)).
  - reflexivity.
  - vm_compute. reflexivity.
Defined.

Lemma comprehension_total {A B : Type} (f : A -> pyexn + B) (l : list A) :
  (forall a, In a l -> exists b, f a = inr b) ->
  exists r, comprehension f l = inr r.
Proof.
  induction l as [|a l IH]; cbn; intros H; [eexists; reflexivity|].
  destruct (H a (or_introl eq_refl)) as (b & ->).
  destruct IH as (r & ->); [intros; apply H; right; assumption|].
  eexists; reflexivity.
Qed.

Lemma load_loop_total (calculated_age : list Z) (paths : list (list string))
    (i : nat) (images : list string) (ages : list Z) :
  (i + length paths <= length calculated_age)%nat ->
  Forall (fun path => path <> []) paths ->
  exists r, load_loop calculated_age paths i images ages = inr r.
Proof.
  revert i images ages. induction paths as [|path paths IH];
    cbn; intros i images ages Hlen Hne; [eexists; reflexivity|].
  inversion Hne as [|? ? Hp Hrest]; subst.
  destruct path as [|p path]; [congruence|]. cbn.
  unfold getitem.
  destruct (nth_error calculated_age i) as [a|] eqn:Ha.
  - apply IH; [lia | exact Hrest].
  - apply nth_error_None in Ha. lia.
Qed.

(** [load_data] succeeds on every table whose columns are aligned (no
    more paths than dates of birth, no more dates of birth than photo
    years), whose path arrays are not empty and whose dates of birth are
    all within the range of [datetime]. *)
Theorem load_data_succeeds (metadata : wiki) :
  (length (full_path metadata) <= length (dob metadata))%nat ->
  (length (dob metadata) <= length (photo_taken metadata))%nat ->
  Forall (fun path => path <> []) (full_path metadata) ->
  Forall (fun d => (py_int d - 366 <= Datetime.MAXORDINAL)%Z)
         (dob metadata) ->
  exists images ages_list, load_data metadata = inr (images, ages_list).
Proof.
  intros Hpd Hdp Hpaths Hdob. unfold load_data.
  destruct (@comprehension_total nat Z
              (fun i => match getitem (photo_taken metadata) i with
                        | inl e => inl e
                        | inr p =>
                            match getitem (dob metadata) i with
                            | inl e => inl e
                            | inr d => match compute_age p d with
                                       | Some a => inr a
                                       | None => inl ValueError
                                       end
                            end
                        end)
              (seq 0 (length (dob metadata)))) as (ca & Hca).
  { intros i Hi. apply in_seq in Hi. unfold getitem.
    destruct (nth_error (photo_taken metadata) i) as [p|] eqn:Hp;
      [|apply nth_error_None in Hp; lia].
    destruct (nth_error (dob metadata) i) as [d|] eqn:Hd;
      [|apply nth_error_None in Hd; lia].
    rewrite Forall_forall in Hdob.
    pose proof (Hdob d (nth_error_In _ _ Hd)) as Hrange.
    unfold compute_age, Datetime.fromordinal.
    replace ((1 <=? Z.max (py_int d - 366) 1)%Z
             && (Z.max (py_int d - 366) 1 <=? Datetime.MAXORDINAL)%Z)
      with true.
    - destruct (_ <? 7)%Z; eexists; reflexivity.
    - symmetry. apply andb_true_iff. split; apply Z.leb_le;
        unfold Datetime.MAXORDINAL in *; lia. }
  rewrite Hca.
  pose proof (Forall2_length (comprehension_inr _ _ Hca)) as Hlen.
  rewrite length_seq in Hlen.
  destruct (@load_loop_total ca (full_path metadata) 0 [] []) as ([im ag] & H).
  - cbn. lia.
  - exact Hpaths.
  - exists im, ag. exact H.
Qed.

Lemma load_data_succeeds_witness :
  exists images ages_list,
    load_data {| full_path := [["a.jpg"%string]; ["b.jpg"%string]];
                 dob := [730486 # 1; 723000 # 1; 5 # 1];
                 photo_taken := [2010%Z; 2011%Z; 2012%Z] |}
    = inr (images, ages_list).
Proof.
  apply (@load_data_succeeds
           {| full_path := [["a.jpg"%string]; ["b.jpg"%string]];
              dob := [730486 # 1; 723000 # 1; 5 # 1];
              photo_taken := [2010%Z; 2011%Z; 2012%Z] |}).
  - cbn. lia.
  - cbn. lia.
  - repeat constructor; discriminate.
  - repeat constructor; vm_compute; discriminate.
Defined.

Lemma load_data_parallel_witness :
  load_data {| full_path := [["a.jpg"%string]; ["b.jpg"%string]];
               dob := [730486 # 1; 723000 # 1; 5 # 1];
               photo_taken := [2010%Z; 2011%Z; 2012%Z] |}
  = inr (["a.jpg"%string; "b.jpg"%string], [10%Z; 31%Z])
  /\ length ["a.jpg"%string; "b.jpg"%string] = 2%nat
  /\ length [10%Z; 31%Z] = 2%nat.
Proof.
  assert (H : load_data
                {| full_path := [["a.jpg"%string]; ["b.jpg"%string]];
                   dob := [730486 # 1; 723000 # 1; 5 # 1];
                   photo_taken := [2010%Z; 2011%Z; 2012%Z] |}
              = inr (["a.jpg"%string; "b.jpg"%string], [10%Z; 31%Z]))
    by (vm_compute; reflexivity).
  split; [exact H|].
  destruct (load_data_parallel _ H) as (H1 & H2 & _).
  split; [exact H1 | exact H2].
Defined.

End Loader.

(** ** The Age-cGAN generator and discriminator *)

(** [generator()] maps a 100-wide latent vector and a 6-wide label to a
    tensor of shape 64x64x64: the last convolution has 64 filters, so the
    output has 64 channels, not the 3 of an image.  The path is
    8 -> 16 -> 32 -> 64 pixels a side and ends in a tanh, so every entry
    lies in [-1, 1]. *)
Theorem faceapp_generator_output :
  exists g s out,
    run FaceApp.generator = inr (g, s)
    /\ inputs g = [KInput "latent_vector" (vec 100);
                   KInput "conditioning_variable" (vec 6)]
    /\ outputs g = [out]
    /\ shape_of out = nhwc 64 64 64
    /\ spine out =
         [(Activation Tanh, nhwc 64 64 64);
          (Conv2D 64 5 5 1 Same true, nhwc 64 64 64);
          (UpSampling2D 2 2, nhwc 64 64 64);
          (LeakyReLU (2 # 10), nhwc 32 32 64);
          (BatchNormalization, nhwc 32 32 64);
          (Conv2D 64 5 5 1 Same true, nhwc 32 32 64);
          (UpSampling2D 2 2, nhwc 32 32 128);
          (LeakyReLU (2 # 10), nhwc 16 16 128);
          (BatchNormalization, nhwc 16 16 128);
          (Conv2D 128 5 5 1 Same true, nhwc 16 16 128);
          (UpSampling2D 2 2, nhwc 16 16 256);
          (Reshape [8; 8; 256]%Z, nhwc 8 8 256);
          (Lambda "Dropout(0.2)", vec 16384);
          (LeakyReLU (2 # 10), vec 16384);
          (BatchNormalization, vec 16384);
          (Dense 16384 true, vec 16384);
          (Lambda "Dropout(0.2)", vec 20148);
          (LeakyReLU (2 # 10), vec 20148);
          (Dense 20148 true, vec 20148);
          (Concatenate (-1), vec 106)]
    /\ forall (ctx : world) (idx : list Z),
         (-1 <= eval ctx out idx <= 1)%R.
Proof.
  do 3 eexists.
  split; [vm_compute; reflexivity|].
  split; [reflexivity|].
  split; [reflexivity|].
  split; [reflexivity|].
  split; [vm_compute; reflexivity|].
  intros ctx idx. rewrite eval_activation. apply tanh_range.
Qed.

(** The three builders of the Age-cGAN script do not compose:
    [adversarial] applied to the models [generator()] and
    [discriminator()] return raises when it calls the discriminator,
    whatever was built before.  The generated tensor has 64 channels where
    the discriminator takes 3, and the 6-wide label is passed where the
    discriminator lists the 32x32x6 broadcast label. *)
Theorem faceapp_builders_do_not_compose (s : kstate) :
  bind FaceApp.generator (fun g =>
  bind FaceApp.discriminator (fun d =>
  FaceApp.adversarial g d)) s = inl DimMismatch.
Proof.
  vm_compute. reflexivity.
Qed.

(** Either mismatch alone is enough: a discriminator input list with the
    generated tensor in the first place, or with the label placeholder in
    the second, is refused. *)
Lemma faceapp_input_mismatches :
  exists g d s out,
    run (bind FaceApp.generator (fun g =>
         bind FaceApp.discriminator (fun d => ret (g, d))))
    = inr ((g, d), s)
    /\ outputs g = [out]
    /\ map shape_of (inputs d) = [nhwc 64 64 3; nhwc 32 32 6]
    /\ shape_of out = nhwc 64 64 64
    /\ shapes_agree (inputs d) [out; KInput "b" (nhwc 32 32 6)] = false
    /\ shapes_agree (inputs d)
         [KInput "i" (nhwc 64 64 3); KInput "conditioning_variable" (vec 6)]
       = false.
Proof.
  do 4 eexists.
  split; [vm_compute; reflexivity|].
  split; [reflexivity|].
  split; [vm_compute; reflexivity|].
  split; [reflexivity|].
  split; vm_compute; reflexivity.
Qed.

(** ** Blocks and builders of the StackGAN script *)

(** [ConvBlock(x, k)] with a positive number of kernels, applied to a
    feature map of known height, width and channel count, halves height
    and width, rounding up, and sets the channel count; it creates three
    layers.  On a feature map whose channel count is unknown its
    convolution cannot be built and the block raises. *)
Theorem ConvBlock_halves (x : ktensor) (b : dim) (h w k : Z)
    (s : kstate) :
  (0 < h)%Z -> (0 < w)%Z -> (0 < k)%Z ->
  (forall c : Z, (0 < c)%Z ->
     shape_of x = [b; Some h; Some w; Some c] ->
     exists y s',
       StackGAN.ConvBlock x k s = inr (y, s')
       /\ shape_of y
          = [b; Some ((h + 1) / 2)%Z; Some ((w + 1) / 2)%Z; Some k]
       /\ next_uid s' = (next_uid s + 3)%nat)
  /\ (shape_of x = [b; Some h; Some w; None] ->
      StackGAN.ConvBlock x k s = inl UndefinedDim).
Proof.
  intros Hh Hw Hk. split.
  - intros c Hc Hx.
    unfold StackGAN.ConvBlock, bind, call, ret. cbn.
    rewrite Hx. cbn. rewrite (filters_positive Hk). cbn.
    replace (h + 2 - 1)%Z with (h + 1)%Z by lia.
    replace (w + 2 - 1)%Z with (w + 1)%Z by lia.
    eexists. eexists. split; [reflexivity|].
    split; [reflexivity|]. cbn. lia.
  - intros Hx.
    unfold StackGAN.ConvBlock, bind, call, ret. cbn.
    rewrite Hx. cbn. rewrite (filters_positive Hk). reflexivity.
Qed.

Lemma ConvBlock_halves_witness :
  (exists y s',
      StackGAN.ConvBlock (KInput "x" (nhwc 32 32 64)) 128 init_state
      = inr (y, s')
      /\ shape_of y = nhwc 16 16 128)
  /\ StackGAN.ConvBlock
       (KInput "x" [None; Some 32%Z; Some 32%Z; None]) 128 init_state
     = inl UndefinedDim.
Proof.
  split.
  - destruct (proj1 (@ConvBlock_halves (KInput "x" (nhwc 32 32 64))
                       None 32 32 128 init_state eq_refl eq_refl eq_refl)
                64%Z eq_refl eq_refl)
      as (y & s' & Hrun & Hshape & _).
    exists y, s'. split; [exact Hrun | exact Hshape].
  - exact (proj2 (@ConvBlock_halves
                    (KInput "x" [None; Some 32%Z; Some 32%Z; None])
                    None 32 32 128 init_state eq_refl eq_refl eq_refl)
                 eq_refl).
Defined.

(** [conditioning_augmentation] splits at column 128 whatever the width
    of its argument.  On a 256-wide tensor it returns a 128-wide one.  On
    a tensor 130 or more wide and not 256 wide, the two halves have
    different widths and the product with the noise raises.  On a 129-wide
    tensor nothing is raised: the single log_sigma column is broadcast
    over the 128 means. *)
Theorem conditioning_augmentation_width (x : ktensor) (b : dim) (n : Z)
    (s : kstate) :
  shape_of x = [b; Some n] ->
  (n = 256%Z \/ n = 129%Z ->
   exists c, StackGAN.conditioning_augmentation x s = inr (c, s)
             /\ shape_of c = [b; Some 128%Z])
  /\ ((130 <= n)%Z -> n <> 256%Z ->
      StackGAN.conditioning_augmentation x s = inl DimMismatch).
Proof.
  intros Hx. split.
  - intros [-> | ->];
      unfold StackGAN.conditioning_augmentation, bind, backend, ret; cbn;
      rewrite Hx; cbn; destruct b as [m|]; cbn.
    + destruct (m =? 1)%Z eqn:E; cbn; rewrite ?Z.eqb_refl; cbn;
        eexists; split; reflexivity.
    + eexists; split; reflexivity.
    + destruct (m =? 1)%Z eqn:E; cbn; rewrite ?Z.eqb_refl; cbn;
        eexists; split; reflexivity.
    + eexists; split; reflexivity.
  - intros Hn Hne.
    unfold StackGAN.conditioning_augmentation, bind, backend, ret. cbn.
    rewrite Hx. cbn.
    rewrite Z.min_l by lia. cbn.
    rewrite Z.max_l by lia.
    destruct (Z.eqb_spec (n - 128) 128); [lia|].
    destruct (Z.eqb_spec (n - 128) 1); [lia|].
    destruct b as [m|]; cbn; [destruct (m =? 1)%Z|]; reflexivity.
Qed.

Lemma conditioning_augmentation_width_witness :
  (exists c,
      StackGAN.conditioning_augmentation (KInput "x" (vec 256)) init_state
      = inr (c, init_state)
      /\ shape_of c = vec 128)
  /\ StackGAN.conditioning_augmentation (KInput "x" (vec 200)) init_state
     = inl DimMismatch.
Proof.
  split.
  - apply (proj1 (@conditioning_augmentation_width (KInput "x" (vec 256))
                    None 256 init_state eq_refl)).
    left. reflexivity.
  - apply (proj2 (@conditioning_augmentation_width (KInput "x" (vec 200))
                    None 200 init_state eq_refl)).
    + lia.
    + discriminate.
Defined.







(** The Stage-1 builders compose: the composite of the Stage-1 generator
    and discriminator is built, with a probability of shape (None, 1) and
    the 256-wide [ca] as outputs.  When it is compiled, the weights a
    training step updates are the weighted layers of the generator, each
    once, and no other.  The probability is computed from the embedding
    and the noise alone: the conditioning map [input_layer3] is no input
    of it. *)
Theorem stage1_composite :
  exists g d adv collected s probability ca,
    run (bind StackGAN.build_stage1_generator (fun g =>
         bind StackGAN.build_stage1_discriminator (fun d =>
         bind (StackGAN.build_adversarial g d) (fun adv =>
         bind (compile adv) (fun collected =>
         ret (g, d, adv, collected))))))
    = inr ((g, d, adv, collected), s)
    /\ outputs adv = [probability; ca]
    /\ shape_of probability = vec 1
    /\ shape_of ca = vec 256
    /\ collected = nodup Nat.eq_dec (model_weights g)
    /\ collected = [23; 21; 20; 17; 16; 13; 12; 9; 8; 4; 0]%nat
    /\ model_weights d = [42; 35; 34; 32; 31; 29; 28; 26]%nat
    /\ inputs_of probability
       = ["input_layer1"; "input_layer1"; "input_layer2"]%string
    /\ forall (ctx : world) (idx : list Z),
         (0 <= eval ctx probability idx <= 1)%R.
Proof.
  do 7 eexists.
  split; [vm_compute; reflexivity|].
  split; [reflexivity|].
  split; [reflexivity|].
  split; [reflexivity|].
  split; [vm_compute; reflexivity|].
  split; [reflexivity|].
  split; [vm_compute; reflexivity|].
  split; [vm_compute; reflexivity|].
  intros ctx idx. rewrite eval_activation. apply sigmoid_range.
Qed.

(** [expand_dims] of the Age-cGAN script turns a batch of vectors of any
    width into a batch of 32x32 maps with that many channels. *)
Theorem expand_dims_shape (label : ktensor) (b d : dim) (s : kstate) :
  shape_of label = [b; d] ->
  exists t,
    FaceApp.expand_dims label s = inr (t, s)
    /\ shape_of t = [b; Some 32%Z; Some 32%Z; d].
Proof.
  intros H. unfold FaceApp.expand_dims, bind, backend. cbn.
  rewrite H. cbn.
  eexists. split; [reflexivity|]. cbn.
  destruct b as [m|], d as [k|]; cbn; rewrite ?Z.mul_1_r; reflexivity.
Qed.

Lemma expand_dims_shape_witness :
  exists t,
    FaceApp.expand_dims (KInput "label" (vec 6)) init_state
    = inr (t, init_state)
    /\ shape_of t = nhwc 32 32 6.
Proof.
  apply (@expand_dims_shape (KInput "label" (vec 6)) None (Some 6%Z)
           init_state eq_refl).
Defined.
